(** * PUFlib: the central library (puflib.c) and the test module (puflibtest.c)

    A shallow embedding of [src/puflib/puflib.c] and
    [src/modules/puflibtest/puflibtest.c].  The C code works on process-wide
    state (the file system, [errno], the two callback slots); here that state
    is one record, [world], threaded through a state monad whose failure
    stands for the one fatal event the code can run into, a call through a
    null callback pointer.

    The platform layer of the library (misc.c and the platform file:
    [puflib_get_nv_store_path], [puflib_check_access],
    [puflib_create_directory_tree], [puflib_create_and_open],
    [puflib_delete_tree], [puflib_asprintf]) and the headers are not among the
    sources.  They are modelled below on an in-memory file system with
    injectable faults; each such definition says so in its comment. *)

From Stdlib Require Import ZArith String Ascii List DecimalString.
From stdpp Require Import base list strings gmap.

Local Open Scope Z_scope.

(** ** Data model *)

(** [enum puflib_storage_type]: all six enumerators occur in the sources. *)
Inductive puflib_storage_type :=
  | STORAGE_TEMP_FILE
  | STORAGE_TEMP_DIR
  | STORAGE_FINAL_FILE
  | STORAGE_FINAL_DIR
  | STORAGE_DISABLED_FILE
  | STORAGE_DISABLED_DIR.

#[global] Instance puflib_storage_type_eq_dec : EqDecision puflib_storage_type.
Proof. solve_decision. Defined.

(** [enum provisioning_status], the result of a module's [provision]. *)
Inductive provisioning_status :=
  | PROVISION_COMPLETE
  | PROVISION_INCOMPLETE
  | PROVISION_ERROR.

(** [module_info]: the descriptive fields.  The three capability pointers of
    the C struct are left out: nothing below dispatches through them. *)
Record module_info := Build_module_info {
  name : string;
  author : string;
  desc : string;
}.

(** Modelled from the spec: [enum puflib_status_level] of puflib.h, which is
    not among the sources.  The level is an [int]-valued C enumeration, so any
    integer can reach [puflib_report]; the three enumerators are numbered from
    zero in the order the spec lists them (info, warn, error). *)
Definition STATUS_INFO : Z := 0.
Definition STATUS_WARN : Z := 1.
Definition STATUS_ERROR : Z := 2.

(** Error numbers of <errno.h> (Linux values). *)
Definition ENOENT : Z := 2.
Definition EIO : Z := 5.
Definition ENOMEM : Z := 12.
Definition EACCES : Z := 13.
Definition EBUSY : Z := 16.
Definition EEXIST : Z := 17.
Definition ENOTDIR : Z := 20.
Definition EISDIR : Z := 21.
Definition EINVAL : Z := 22.
Definition ENFILE : Z := 23.
Definition ERANGE : Z := 34.
Definition ENOTEMPTY : Z := 39.

(** A path is the list of its components, outermost first; [[]] is the root
    of the file system. *)
Abbreviation path := (list string).

Inductive node :=
  | File (content : string)
  | Dir.

#[global] Instance node_eq_dec : EqDecision node.
Proof. solve_decision. Defined.

(** The operations of the operating system that can be made to fail. *)
Inductive syscall :=
  | sys_mkdir (p : path)
  | sys_creat (p : path)
  | sys_fopen (p : path)
  | sys_write (p : path)
  | sys_remove (p : path)
  | sys_malloc (size : nat).

(** What the status handler and the query handler act on: the lines shown to
    the user so far.  A handler is foreign code; its effect is confined to
    this component (and, for a query handler, to the buffer it is given). *)
Abbreviation console := (list string).

Definition puflib_status_handler_p : Type := string → console → console.

Definition puflib_query_handler_p : Type :=
  module_info → string → string → list ascii → nat → console →
  bool * list ascii * console.

Record world := Build_world {
  fs : gmap path node;
  errno : Z;
  STATUS_CALLBACK : option puflib_status_handler_p;
  QUERY_CALLBACK : option puflib_query_handler_p;
  out : console;
}.

Definition set_fs (m : gmap path node) (w : world) : world :=
  Build_world m (errno w) (STATUS_CALLBACK w) (QUERY_CALLBACK w) (out w).
Definition set_errno (e : Z) (w : world) : world :=
  Build_world (fs w) e (STATUS_CALLBACK w) (QUERY_CALLBACK w) (out w).
Definition set_out (c : console) (w : world) : world :=
  Build_world (fs w) (errno w) (STATUS_CALLBACK w) (QUERY_CALLBACK w) c.
Definition set_STATUS_CALLBACK (h : option puflib_status_handler_p) (w : world) : world :=
  Build_world (fs w) (errno w) h (QUERY_CALLBACK w) (out w).
Definition set_QUERY_CALLBACK (h : option puflib_query_handler_p) (w : world) : world :=
  Build_world (fs w) (errno w) (STATUS_CALLBACK w) h (out w).

(** An open stream: the file it is attached to and the file position. *)
Record FILE := Build_FILE {
  f_path : path;
  f_pos : nat;
}.

(** ** The monad of library calls

    [None] is a crash (a call through a null function pointer); otherwise a
    call returns a value and the next world. *)
Definition M (A : Type) : Type := world → option (A * world).

#[global] Instance M_ret : MRet M := λ A x w, Some (x, w).
#[global] Instance M_bind : MBind M := λ A B f m w,
  match m w with
  | Some (x, w') => f x w'
  | None => None
  end.

#[global] Instance M_fmap : FMap M := λ A B f m w,
  match m w with
  | Some (x, w') => Some (f x, w')
  | None => None
  end.

Definition get_world : M world := λ w, Some (w, w).
Definition modify (f : world → world) : M unit := λ w, Some (tt, f w).
Definition crash {A} : M A := λ _, None.

(** A failing system call: set [errno], hand back [r]. *)
Definition fail_with {A} (e : Z) (r : A) : M A := λ w, Some (r, set_errno e w).

(** ** Formatting: the conversions the sources use ([%s] and [%d]) *)

Inductive fmt_arg :=
  | arg_s (s : string)
  | arg_d (n : Z).

Definition string_of_Z (n : Z) : string := NilZero.string_of_int (Z.to_int n).

(** A conversion applied to an argument of the wrong kind is undefined in C;
    it renders as nothing here and never happens in the sources. *)
Definition render_arg (conv : ascii) (a : fmt_arg) : string :=
  match conv, a with
  | "s"%char, arg_s s => s
  | "d"%char, arg_d n => string_of_Z n
  | _, _ => EmptyString
  end.

Fixpoint sprintf (fmt : string) (args : list fmt_arg) : string :=
  match fmt with
  | EmptyString => EmptyString
  | String "%" (String c rest) =>
      if Ascii.eqb c "%" then String "%" (sprintf rest args)
      else
        match args with
        | a :: args' => render_arg c a +:+ sprintf rest args'
        | [] => sprintf rest []
        end
  | String c rest => String c (sprintf rest args)
  end.


(** The bytes of a [char] array read as a C string: up to the first NUL. *)
Fixpoint c_str (buf : list ascii) : string :=
  match buf with
  | [] => EmptyString
  | c :: buf' => if Ascii.eqb c zero then EmptyString else String c (c_str buf')
  end.

(** [fscanf(f, "%d", &x)]: skip white space, read an optional sign and the
    longest run of decimal digits.  The C library converts the numeral as
    [strtol] does, to a [long] (64 bits) that saturates at LONG_MAX and
    LONG_MIN, and stores it into the [int], which keeps the low 32 bits: a
    numeral beyond the range of [long] reads as -1 or 0. *)
Definition is_space (c : ascii) : bool :=
  let n := nat_of_ascii c in
  ((n =? 32) || ((9 <=? n) && (n <=? 13)))%nat.

Definition digit_of (c : ascii) : option Z :=
  let n := nat_of_ascii c in
  if ((48 <=? n) && (n <=? 57))%nat then Some (Z.of_nat n - 48) else None.

Fixpoint skip_space (s : string) : string :=
  match s with
  | String c rest => if is_space c then skip_space rest else s
  | EmptyString => EmptyString
  end.

Fixpoint scan_digits (acc : Z) (s : string) : Z * string :=
  match s with
  | String c rest =>
      match digit_of c with
      | Some d => scan_digits (10 * acc + d) rest
      | None => (acc, s)
      end
  | EmptyString => (acc, EmptyString)
  end.

Definition LONG_MAX : Z := 2 ^ 63 - 1.
Definition LONG_MIN : Z := - 2 ^ 63.

(** The result of [strtol] for a numeral of value [z]. *)
Definition strtol_value (z : Z) : Z := Z.max LONG_MIN (Z.min z LONG_MAX).

(** The [int] a [long] is stored into. *)
Definition wrap_int (z : Z) : Z := (z + 2 ^ 31) mod 2 ^ 32 - 2 ^ 31.

(** The number the input starts with, as written, and what is left of the
    input; [None] when the input does not start with a number (a matching
    failure). *)
Definition scan_number (s : string) : option (Z * string) :=
  let s1 := skip_space s in
  let '(sign, s2) :=
    match s1 with
    | String "-" rest => (-1, rest)
    | String "+" rest => (1, rest)
    | _ => (1, s1)
    end in
  match s2 with
  | String c _ =>
      match digit_of c with
      | Some _ => let '(v, rest) := scan_digits 0 s2 in Some (sign * v, rest)
      | None => None
      end
  | EmptyString => None
  end.

(** The converted value and what is left of the input. *)
Definition scan_d (s : string) : option (Z * string) :=
  match scan_number s with
  | Some (v, rest) => Some (wrap_int (strtol_value v), rest)
  | None => None
  end.

(** ** The platform: an in-memory file system with injectable faults *)

(** The parts of the environment the sources leave open. *)
Class platform := Build_platform {
  (** Modelled from the spec: [puflib_get_nv_store_path] of misc.c, which is
      not among the sources.  It is "a pure function of (module name, storage
      kind, storage root)" that "fails only if the storage root cannot be
      resolved"; the layout it chooses is left open. *)
  puflib_get_nv_store_path : string → puflib_storage_type → option path;
  (** The faults of this run: [fault c = Some e] makes the system call [c]
      fail with error number [e]. *)
  fault : syscall → option Z;
  (** [strerror] of the C library. *)
  strerror : Z → string;
  (** What [free] leaves in [errno], given what it found there.  (Before
      POSIX Issue 8 [free] was allowed to change [errno]; the sources save and
      restore it around [free] where it matters.) *)
  free_errno : Z → Z;
  (** The values of the [enum module_status] flags and of its error value,
      from puflib_internal.h, which is not among the sources. *)
  MODULE_PROVISIONED : Z;
  MODULE_DISABLED : Z;
  MODULE_STATUS_ERROR : Z;
  (** The indeterminate initial contents of the automatic array [querybuf]
      of [provision_start]. *)
  stack_garbage : list ascii;
}.

Section PUFlib.
Context `{!platform}.

Definition lookup_node (m : gmap path node) (p : path) : option node :=
  match p with
  | [] => Some Dir
  | _ => m !! p
  end.

Definition parent (p : path) : path := removelast p.

(** The non-empty prefixes of a path, shortest first. *)
Fixpoint ancestors_from (pre : path) (p : path) : list path :=
  match p with
  | [] => []
  | c :: p' => (pre ++ [c]) :: ancestors_from (pre ++ [c]) p'
  end.

Definition prefixes (p : path) : list path := ancestors_from [] p.

(** [free(p)]: nothing for a null pointer. *)
Definition free {A} (p : option A) : M unit :=
  match p with
  | Some _ => modify (λ w, set_errno (free_errno (errno w)) w)
  | None => mret tt
  end.

(** Modelled from the spec: [puflib_check_access] of the platform file.  The
    probe is an "existence + accessibility check only", and a store counts
    when it "already exists with the expected file-vs-directory shape".
    Returns [true] on failure, as the C function does. *)
Definition puflib_check_access (p : path) (isdirectory : bool) : M bool :=
  w ← get_world;
  match lookup_node (fs w) p, isdirectory with
  | Some Dir, true => mret false
  | Some (File _), false => mret false
  | Some Dir, false => fail_with EISDIR true
  | Some (File _), true => fail_with ENOTDIR true
  | None, _ => fail_with ENOENT true
  end.

(** [mkdir] for each path of the list that is not there yet. *)
Fixpoint mkdirs (ps : list path) : M bool :=
  match ps with
  | [] => mret false
  | p :: ps' =>
      w ← get_world;
      match lookup_node (fs w) p with
      | Some Dir => mkdirs ps'
      | Some (File _) => fail_with ENOTDIR true
      | None =>
          match fault (sys_mkdir p) with
          | Some e => fail_with e true
          | None => modify (set_fs (<[p := Dir]> (fs w))) ;; mkdirs ps'
          end
      end
  end.

(** Modelled from the spec: [puflib_create_directory_tree] of misc.c
    ("recursive directory creation", "creates missing ancestor directories").
    With [skip_last] the last component, the file to be, is not created. *)
Definition puflib_create_directory_tree (p : path) (skip_last : bool) : M bool :=
  mkdirs (prefixes (if skip_last then parent p else p)).

(** [fopen] of the C library for the two modes the sources use. *)
Definition fopen (p : path) (mode : string) : M (option FILE) :=
  w ← get_world;
  match fault (sys_fopen p) with
  | Some e => fail_with e None
  | None =>
      if String.eqb mode "r+" then
        match lookup_node (fs w) p with
        | Some (File _) => mret (Some (Build_FILE p 0))
        | Some Dir => fail_with EISDIR None
        | None => fail_with ENOENT None
        end
      else if String.eqb mode "w" then
        match lookup_node (fs w) p, lookup_node (fs w) (parent p) with
        | Some Dir, _ => fail_with EISDIR None
        | Some (File _), _ | None, Some Dir =>
            modify (set_fs (<[p := File EmptyString]> (fs w))) ;;
            mret (Some (Build_FILE p 0))
        | None, Some (File _) => fail_with ENOTDIR None
        | None, None => fail_with ENOENT None
        end
      else fail_with EINVAL None
  end.

(** Modelled from the spec: [puflib_create_and_open] of the platform file.
    Creation is exclusive: section 4.3 has the creation of a file store fail
    "because the store already exists", which is what [provision] relies on
    to tell a resumption from a fresh run.  A fault (permission, exhausted
    resources, I/O) is met before the existing entry is. *)
Definition puflib_create_and_open (p : path) (mode : string) : M (option FILE) :=
  w ← get_world;
  match fault (sys_creat p) with
  | Some e => fail_with e None
  | None =>
      match lookup_node (fs w) p, lookup_node (fs w) (parent p) with
      | Some _, _ => fail_with EEXIST None
      | None, Some Dir =>
          modify (set_fs (<[p := File EmptyString]> (fs w))) ;; fopen p mode
      | None, Some (File _) => fail_with ENOTDIR None
      | None, None => fail_with ENOENT None
      end
  end.

Definition fclose (f : FILE) : M unit := mret tt.

Definition rewind (f : FILE) : M FILE := mret (Build_FILE (f_path f) 0).

Fixpoint nul_bytes (n : nat) : string :=
  match n with
  | O => EmptyString
  | S n' => String zero (nul_bytes n')
  end.

(** Overwrite [content] with [data] from position [pos] on. *)
Definition write_at (pos : nat) (data content : string) : string :=
  let n := String.length content in
  let k := String.length data in
  substring 0 pos content +:+ nul_bytes (pos - n) +:+ data
  +:+ substring (pos + k) (n - (pos + k)) content.

(** Write [data] at the position of the stream; [None] is a write error. *)
Definition fwrite_string (f : FILE) (data : string) : M (option FILE) :=
  w ← get_world;
  match fault (sys_write (f_path f)), fs w !! f_path f with
  | Some e, _ => fail_with e None
  | None, Some (File c) =>
      modify (set_fs (<[f_path f := File (write_at (f_pos f) data c)]> (fs w))) ;;
      mret (Some (Build_FILE (f_path f) (f_pos f + String.length data)))
  | None, _ => fail_with EIO None
  end.

(** [fprintf]; the sources ignore its result, a stream in error stays where
    it was. *)
Definition fprintf (f : FILE) (fmt : string) (args : list fmt_arg) : M FILE :=
  r ← fwrite_string f (sprintf fmt args);
  mret (default f r).

(** [fputs]: [true] stands for [EOF]. *)
Definition fputs (s : string) (f : FILE) : M (bool * FILE) :=
  r ← fwrite_string f s;
  mret (match r with Some f' => (false, f') | None => (true, f) end).

(** [fscanf(f, "%d", &x)]: the converted value, if any, and the stream.  A
    numeral out of the range of [long] sets [errno] to ERANGE. *)
Definition fscanf_d (f : FILE) : M (option Z * FILE) :=
  w ← get_world;
  match fs w !! f_path f with
  | Some (File c) =>
      let input := substring (f_pos f) (String.length c - f_pos f) c in
      match scan_number input with
      | Some (v, rest) =>
          (if strtol_value v =? v then mret tt else modify (set_errno ERANGE)) ;;
          mret (Some (wrap_int (strtol_value v)),
                Build_FILE (f_path f)
                  (f_pos f + (String.length input - String.length rest)))
      | None => mret (None, f)
      end
  | _ => mret (None, f)
  end.

(** Does the directory [p] have an entry below it? *)
Definition has_entries (m : gmap path node) (p : path) : bool :=
  bool_decide (filter (λ kv, p ≠ kv.1 ∧ p `prefix_of` kv.1) m ≠ ∅).

(** [remove] of the C library: a file, or an empty directory.  Non-zero
    ([true]) on failure. *)
Definition remove (p : path) : M bool :=
  w ← get_world;
  match fault (sys_remove p) with
  | Some e => fail_with e true
  | None =>
      match p, fs w !! p with
      | [], _ => fail_with EBUSY true
      | _, Some (File _) => modify (set_fs (delete p (fs w))) ;; mret false
      | _, Some Dir =>
          if has_entries (fs w) p then fail_with ENOTEMPTY true
          else modify (set_fs (delete p (fs w))) ;; mret false
      | _, None => fail_with ENOENT true
      end
  end.

(** The entries of the tree rooted at [p] whose removal would fail, with the
    error each would give. *)
Definition blocked (m : gmap path node) (p : path) : list (path * Z) :=
  omap (λ kv, e ← fault (sys_remove kv.1); Some (kv.1, e))
       (map_to_list (filter (λ kv, p `prefix_of` kv.1) m)).

(** Modelled from the spec: [puflib_delete_tree] of misc.c ("recursive
    directory removal").  Directory kinds "recurse and remove the whole
    tree"; on failure "a directory tree may be left partially removed": what
    could not be removed stays, together with the directories above it. *)
Definition puflib_delete_tree (p : path) : M bool :=
  w ← get_world;
  match p, fs w !! p with
  | [], _ => fail_with EBUSY true
  | _, None => fail_with ENOENT true
  | _, Some _ =>
      match blocked (fs w) p with
      | [] =>
          modify (set_fs (filter (λ kv, ¬ p `prefix_of` kv.1) (fs w))) ;;
          mret false
      | (q, e) :: bs =>
          modify (set_fs (filter (λ kv,
                     ¬ p `prefix_of` kv.1
                     ∨ Exists (λ b, kv.1 `prefix_of` b.1) ((q, e) :: bs)) (fs w))) ;;
          fail_with e true
      end
  end.

(** Modelled from the spec: [puflib_asprintf] of misc.c, formatting into
    freshly allocated memory; [None] is its negative result, "internal
    formatting failure (e.g., allocation failure)". *)
Definition puflib_asprintf (fmt : string) (args : list fmt_arg) : M (option string) :=
  let s := sprintf fmt args in
  match fault (sys_malloc (S (String.length s))) with
  | Some e => fail_with e None
  | None => mret (Some s)
  end.

(** ** puflib.c *)

Definition storage_type_is_dir (type : puflib_storage_type) : bool :=
  bool_decide (type = STORAGE_TEMP_DIR)
  || bool_decide (type = STORAGE_FINAL_DIR)
  || bool_decide (type = STORAGE_DISABLED_DIR).

(** The registry.  [PUFLIB_MODULES] is an [extern] table of pointers closed
    by a null pointer; it is defined outside the sources and is taken here as
    the list of the descriptors before the null pointer. *)
Definition puflib_get_modules (PUFLIB_MODULES : list module_info)
    : list module_info :=
  PUFLIB_MODULES.

Fixpoint puflib_get_module (PUFLIB_MODULES : list module_info) (n : string)
    : option module_info :=
  match PUFLIB_MODULES with
  | [] => None
  | m :: rest =>
      if String.eqb (name m) n then Some m else puflib_get_module rest n
  end.

(** A call through the function pointer [STATUS_CALLBACK]. *)
Definition call_STATUS_CALLBACK (message : string) : M unit :=
  w ← get_world;
  match STATUS_CALLBACK w with
  | Some handler => modify (set_out (handler message (out w)))
  | None => crash
  end.

Definition puflib_module_status (module : module_info) : M Z :=
  let err (path_f path_d path_dis_f path_dis_d : option path) : M Z :=
    free path_f ;; free path_d ;; free path_dis_f ;; free path_dis_d ;;
    mret MODULE_STATUS_ERROR in
  match puflib_get_nv_store_path (name module) STORAGE_FINAL_FILE with
  | None => err None None None None
  | Some path_f =>
  match puflib_get_nv_store_path (name module) STORAGE_FINAL_DIR with
  | None => err (Some path_f) None None None
  | Some path_d =>
  match puflib_get_nv_store_path (name module) STORAGE_DISABLED_FILE with
  | None => err (Some path_f) (Some path_d) None None
  | Some path_dis_f =>
  match puflib_get_nv_store_path (name module) STORAGE_DISABLED_DIR with
  | None => err (Some path_f) (Some path_d) (Some path_dis_f) None
  | Some path_dis_d =>
      access_f ← negb <$> puflib_check_access path_f false;
      access_d ← negb <$> puflib_check_access path_d true;
      access_dis_f ← negb <$> puflib_check_access path_dis_f false;
      access_dis_d ← negb <$> puflib_check_access path_dis_d true;
      let status := 0 in
      let status :=
        if access_dis_f || access_dis_d
        then Z.lor status (Z.lor MODULE_PROVISIONED MODULE_DISABLED)
        else status in
      let status :=
        if access_f || access_d then Z.lor status MODULE_PROVISIONED
        else status in
      free (Some path_f) ;; free (Some path_d) ;;
      free (Some path_dis_f) ;; free (Some path_dis_d) ;;
      mret status
  end end end end.

Definition puflib_set_status_handler (callback : option puflib_status_handler_p) : M unit :=
  modify (set_STATUS_CALLBACK callback).

Definition puflib_set_query_handler (callback : option puflib_query_handler_p) : M unit :=
  modify (set_QUERY_CALLBACK callback).

Definition puflib_create_nv_store (module : module_info) (type : puflib_storage_type)
    : M (option path) :=
  match puflib_get_nv_store_path (name module) type with
  | None => mret None
  | Some path =>
      present ←
        (if storage_type_is_dir type
         then negb <$> puflib_check_access path true
         else mret false);
      if present : bool then
        free (Some path) ;; modify (set_errno EEXIST) ;; mret None
      else
        failed ← puflib_create_directory_tree path (negb (storage_type_is_dir type));
        if failed : bool then free (Some path) ;; mret None
        else if negb (storage_type_is_dir type) then
          f ← puflib_create_and_open path "r+";
          match f with
          | None => free (Some path) ;; mret None
          | Some f => fclose f ;; mret (Some path)
          end
        else mret (Some path)
  end.

Definition puflib_get_nv_store (module : module_info) (type : puflib_storage_type)
    : M (option path) :=
  match puflib_get_nv_store_path (name module) type with
  | None => mret None
  | Some path =>
      failed ← puflib_check_access path (storage_type_is_dir type);
      if failed : bool then
        free (Some path) ;; modify (set_errno EACCES) ;; mret None
      else mret (Some path)
  end.

Definition puflib_delete_nv_store (module : module_info) (type : puflib_storage_type)
    : M bool :=
  match puflib_get_nv_store_path (name module) type with
  | None => mret true
  | Some path =>
      err ← (if storage_type_is_dir type then puflib_delete_tree path
             else remove path);
      if err : bool then
        errno_temp ← errno <$> get_world;
        free (Some path) ;; modify (set_errno errno_temp) ;; mret true
      else free (Some path) ;; mret false
  end.

Definition puflib_deprovision (module : module_info) : M bool :=
  store_file_path ← puflib_get_nv_store module STORAGE_FINAL_FILE;
  store_dir_path ← puflib_get_nv_store module STORAGE_FINAL_DIR;
  let err : M bool :=
    errno_hold ← errno <$> get_world;
    free store_file_path ;; free store_dir_path ;;
    modify (set_errno errno_hold) ;; mret true in
  failed ← match store_file_path with
           | Some p => remove p
           | None => mret false
           end;
  if failed : bool then err else
  failed ← match store_dir_path with
           | Some p => puflib_delete_tree p
           | None => mret false
           end;
  if failed : bool then err else
  free store_file_path ;; free store_dir_path ;; mret false.

Definition level_as_string (level : Z) : string :=
  if level =? STATUS_INFO then "info"
  else if level =? STATUS_WARN then "warn"
  else "error".

Definition puflib_report (module : module_info) (level : Z) (message : string) : M unit :=
  formatted ← puflib_asprintf "%s (%s): %s"
                 [arg_s (level_as_string level); arg_s (name module); arg_s message];
  match formatted with
  | None => call_STATUS_CALLBACK "error (puflib): internal error formatting message"
  | Some s => call_STATUS_CALLBACK s ;; free formatted
  end.

Definition puflib_report_fmt (module : module_info) (level : Z)
    (fmt : string) (ap : list fmt_arg) : M unit :=
  formatted ← puflib_asprintf fmt ap;
  match formatted with
  | None => call_STATUS_CALLBACK "error (puflib): internal error formatting message"
  | Some s => puflib_report module level s ;; free formatted
  end.

Definition puflib_perror (module : module_info) : M unit :=
  w ← get_world;
  puflib_report module STATUS_ERROR (strerror (errno w)).

(** The result is the handler's; the second component is the buffer as the
    call leaves it. *)
Definition puflib_query (module : module_info) (key prompt : string)
    (buffer : list ascii) (buflen : nat) : M (bool * list ascii) :=
  w ← get_world;
  match QUERY_CALLBACK w with
  | Some handler =>
      let '(r, buffer', c) := handler module key prompt buffer buflen (out w) in
      modify (set_out c) ;; mret (r, buffer')
  | None => modify (set_errno 0) ;; mret (true, buffer)
  end.

(** ** puflibtest.c *)

Definition MODULE_INFO : module_info := {|
  name := "puflibtest";
  author := "Chris Pavlina <pavlinac@ainfosec.com>";
  desc := "puflib test module";
|}.

Definition is_hw_supported : bool := true.

(** [chal_resp] returns a null pointer. *)
Definition chal_resp : option (list Z) := None.

Definition nl : string := String "010" EmptyString.

Definition provision_start (f : FILE) : M provisioning_status :=
  puflib_report MODULE_INFO STATUS_INFO "writing to NV store" ;;
  f ← fprintf f ("%d" +:+ nl) [arg_d 1];
  puflib_report MODULE_INFO STATUS_INFO
    "provisioning will continue after the next invocation" ;;
  fclose f ;;
  let querybuf := resize 500 zero stack_garbage in
  '(_, querybuf) ← puflib_query MODULE_INFO "testquery" "Enter any data: " querybuf 500;
  let querybuf := <[(500 - 1)%nat := zero]> querybuf in
  puflib_report_fmt MODULE_INFO STATUS_INFO "query input was: %s"
    [arg_s (c_str querybuf)] ;;
  mret PROVISION_INCOMPLETE.

Definition provision_continue (f : FILE) : M provisioning_status :=
  let step := 0 in
  puflib_report MODULE_INFO STATUS_INFO "reading from NV store" ;;
  '(converted, f) ← fscanf_d f;
  let step := default step converted in
  if step =? 1 then
    puflib_report MODULE_INFO STATUS_INFO "writing to NV store again" ;;
    puflib_report MODULE_INFO STATUS_INFO
      "provisioning will continue after the next invocation" ;;
    f ← rewind f;
    f ← fprintf f ("%d" +:+ nl) [arg_d 2];
    fclose f ;;
    mret PROVISION_INCOMPLETE
  else if step =? 2 then
    fclose f ;;
    puflib_report MODULE_INFO STATUS_INFO "complete" ;;
    puflib_report MODULE_INFO STATUS_INFO "deleting NV store" ;;
    failed ← puflib_delete_nv_store MODULE_INFO STORAGE_TEMP_FILE;
    if failed : bool then
      w ← get_world;
      puflib_report MODULE_INFO STATUS_ERROR (strerror (errno w)) ;;
      mret PROVISION_ERROR
    else
      final ← puflib_create_nv_store MODULE_INFO STORAGE_FINAL_FILE;
      match final with
      | None => puflib_perror MODULE_INFO ;; mret PROVISION_ERROR
      | Some p =>
          f ← fopen p "w";
          match f with
          | None =>
              errno_hold ← errno <$> get_world;
              free final ;;
              modify (set_errno errno_hold) ;;
              puflib_perror MODULE_INFO ;;
              mret PROVISION_ERROR
          | Some f =>
              free final ;;
              '(eof, f) ← fputs "provisioned" f;
              if eof : bool then
                errno_hold ← errno <$> get_world;
                fclose f ;;
                modify (set_errno errno_hold) ;;
                puflib_perror MODULE_INFO ;;
                mret PROVISION_ERROR
              else fclose f ;; mret PROVISION_COMPLETE
          end
      end
  else
    fclose f ;;
    puflib_report MODULE_INFO STATUS_WARN "NV store corrupted" ;;
    mret PROVISION_ERROR.

Definition provision : M provisioning_status :=
  path ← puflib_create_nv_store MODULE_INFO STORAGE_TEMP_FILE;
  match path with
  | Some p =>
      f ← fopen p "r+";
      match f with
      | None =>
          puflib_perror MODULE_INFO ;; free path ;; mret PROVISION_ERROR
      | Some f =>
          puflib_report MODULE_INFO STATUS_INFO "creating NV store" ;;
          free path ;;
          provision_start f
      end
  | None =>
      puflib_report MODULE_INFO STATUS_INFO
        "could not create or NV store exists, continuing provision" ;;
      free path ;;
      path ← puflib_get_nv_store MODULE_INFO STORAGE_TEMP_FILE;
      match path with
      | None => puflib_perror MODULE_INFO ;; mret PROVISION_ERROR
      | Some p =>
          f ← fopen p "r+";
          match f with
          | None =>
              puflib_perror MODULE_INFO ;; free path ;; mret PROVISION_ERROR
          | Some f => free path ;; provision_continue f
          end
      end
  end.

(** ** Vocabulary of the statements *)

(** The two messages [puflib_report] can hand to the status handler. *)
Definition fallback_message : string :=
  "error (puflib): internal error formatting message".

Definition formatted_message (module : module_info) (level : Z) (message : string)
    : string :=
  sprintf "%s (%s): %s"
    [arg_s (level_as_string level); arg_s (name module); arg_s message].

(** The entry at [p] is there with the shape asked for. *)
Definition is_store (m : gmap path node) (p : path) (isdirectory : bool) : bool :=
  match lookup_node m p, isdirectory with
  | Some Dir, true | Some (File _), false => true
  | _, _ => false
  end.

(** The store of kind [type] of the module exists in [w]. *)
Definition store_present (w : world) (module : module_info)
    (type : puflib_storage_type) : bool :=
  match puflib_get_nv_store_path (name module) type with
  | Some p => is_store (fs w) p (storage_type_is_dir type)
  | None => false
  end.

(** What a successful [mkdirs] adds to the file system. *)
Fixpoint add_dirs (ps : list path) (m : gmap path node) : gmap path node :=
  match ps with
  | [] => m
  | p :: ps' =>
      match lookup_node m p with
      | Some _ => add_dirs ps' m
      | None => add_dirs ps' (<[p := Dir]> m)
      end
  end.

(** No proper ancestor of [p] is a file. *)
Definition clear_way (m : gmap path node) (p : path) : Prop :=
  ∀ q c, q ∈ prefixes (parent p) → m !! q ≠ Some (File c).

(** The value of [step] after [fscanf(f, "%d", &step)] on a file holding
    [c], [step] having been 0 before. *)
Definition persisted_step (c : string) : Z :=
  match scan_d c with
  | Some (v, _) => v
  | None => 0
  end.

(** All proper ancestors of [p] are directories. *)
Definition housed (m : gmap path node) (p : path) : Prop :=
  ∀ q, q ∈ prefixes (parent p) → m !! q = Some Dir.

End PUFlib.
(** ** A concrete platform

    One layout of the store paths and a run without faults, with a status
    handler that appends each message to the console.  It instantiates the
    theorems below. *)
Module Demo.

Definition store_path (module_name : string) (type : puflib_storage_type)
    : option path :=
  Some ["var"; "lib"; "puflib";
        match type with
        | STORAGE_TEMP_FILE => "temp"
        | STORAGE_TEMP_DIR => "temp.d"
        | STORAGE_FINAL_FILE => "final"
        | STORAGE_FINAL_DIR => "final.d"
        | STORAGE_DISABLED_FILE => "disabled"
        | STORAGE_DISABLED_DIR => "disabled.d"
        end;
        module_name].

Definition no_fault (c : syscall) : option Z := None.

Definition describe (e : Z) : string := "errno " +:+ string_of_Z e.

Definition plat : platform := {|
  puflib_get_nv_store_path := store_path;
  fault := no_fault;
  strerror := describe;
  free_errno := λ e, e;
  MODULE_PROVISIONED := 2;
  MODULE_DISABLED := 1;
  MODULE_STATUS_ERROR := 128;
  stack_garbage := [];
|}.

(** The same platform on which memory allocation fails. *)
Definition plat_nomem : platform := {|
  puflib_get_nv_store_path := store_path;
  fault := λ c, match c with sys_malloc _ => Some ENOMEM | _ => None end;
  strerror := describe;
  free_errno := λ e, e;
  MODULE_PROVISIONED := 2;
  MODULE_DISABLED := 1;
  MODULE_STATUS_ERROR := 128;
  stack_garbage := [];
|}.

Definition print : puflib_status_handler_p := λ message c, c ++ [message].

Definition answer : puflib_query_handler_p :=
  λ module key prompt buffer buflen c,
    (false, take buflen ["o"; "k"; zero]%char, c ++ [prompt]).

Definition alpha : module_info :=
  {| name := "alpha"; author := "nobody"; desc := "example module" |}.

(** Empty storage, a status handler and no query handler. *)
Definition w0 : world := Build_world ∅ 0 (Some print) None [].

(** The same with a query handler. *)
Definition w0q : world := Build_world ∅ 0 (Some print) (Some answer) [].

(** The same platform on which directories cannot be made. *)
Definition plat_denied : platform := {|
  puflib_get_nv_store_path := store_path;
  fault := λ c, match c with sys_mkdir _ => Some EACCES | _ => None end;
  strerror := describe;
  free_errno := λ e, e;
  MODULE_PROVISIONED := 2;
  MODULE_DISABLED := 1;
  MODULE_STATUS_ERROR := 128;
  stack_garbage := [];
|}.

(** The same platform on which no file can be created for now: the file
    table of the system is full. *)
Definition plat_enfile : platform := {|
  puflib_get_nv_store_path := store_path;
  fault := λ c, match c with sys_creat _ => Some ENFILE | _ => None end;
  strerror := describe;
  free_errno := λ e, e;
  MODULE_PROVISIONED := 2;
  MODULE_DISABLED := 1;
  MODULE_STATUS_ERROR := 128;
  stack_garbage := [];
|}.

Definition temp : path := ["var"; "lib"; "puflib"; "temp"; "puflibtest"].
Definition final : path := ["var"; "lib"; "puflib"; "final"; "puflibtest"].

Definition tree : list (path * node) :=
  [(["var"], Dir); (["var"; "lib"], Dir); (["var"; "lib"; "puflib"], Dir)].

(** The test module interrupted after its first step. *)
Definition w_step1 : world :=
  Build_world
    (list_to_map (tree ++ [(["var"; "lib"; "puflib"; "temp"], Dir);
                           (temp, File ("1" +:+ nl))]))
    0 (Some print) None [].

(** The temp store of the test module holding a step that does not exist. *)
Definition w_step99 : world :=
  Build_world
    (list_to_map (tree ++ [(["var"; "lib"; "puflib"; "temp"], Dir);
                           (temp, File "99")]))
    0 (Some print) None [].

(** Module alpha with its final directory store. *)
Definition w_final_dir : world :=
  Build_world
    (list_to_map (tree ++ [(["var"; "lib"; "puflib"; "final.d"], Dir);
                           (["var"; "lib"; "puflib"; "final.d"; "alpha"], Dir)]))
    0 (Some print) None [].

(** Module alpha with its final file store. *)
Definition w_final_file : world :=
  Build_world
    (list_to_map (tree ++ [(["var"; "lib"; "puflib"; "final"], Dir);
                           (["var"; "lib"; "puflib"; "final"; "alpha"],
                            File "provisioned")]))
    0 (Some print) None [].

(** Module alpha with nothing but its disabled file store. *)
Definition w_disabled : world :=
  Build_world
    (list_to_map (tree ++ [(["var"; "lib"; "puflib"; "disabled"], Dir);
                           (["var"; "lib"; "puflib"; "disabled"; "alpha"],
                            File "")]))
    0 (Some print) None [].

(** The platform of [plat] with the faults [f]. *)
Definition with_fault (f : syscall → option Z) : platform := {|
  puflib_get_nv_store_path := store_path;
  fault := f;
  strerror := describe;
  free_errno := λ e, e;
  MODULE_PROVISIONED := 2;
  MODULE_DISABLED := 1;
  MODULE_STATUS_ERROR := 128;
  stack_garbage := [];
|}.

(** Nothing can be removed. *)
Definition plat_busy : platform :=
  with_fault (λ c, match c with sys_remove _ => Some EBUSY | _ => None end).

(** No file can be opened. *)
Definition plat_locked : platform :=
  with_fault (λ c, match c with sys_fopen _ => Some EACCES | _ => None end).

(** Writing to the final store of the test module fails. *)
Definition plat_io : platform :=
  with_fault (λ c, match c with
                   | sys_write p => if decide (p = final) then Some EIO else None
                   | _ => None
                   end).

(** A table of two modules. *)
Definition table : list module_info := [alpha; MODULE_INFO].

(** Empty storage and no handler at all. *)
Definition w_silent : world := Build_world ∅ 0 None None [].

(** The test module interrupted after its second step. *)
Definition w_step2 : world :=
  Build_world
    (list_to_map (tree ++ [(["var"; "lib"; "puflib"; "temp"], Dir);
                           (temp, File ("2" +:+ nl))]))
    0 (Some print) None [].

(** The test module provisioned. *)
Definition w_provisioned : world :=
  Build_world
    (list_to_map (tree ++ [(["var"; "lib"; "puflib"; "final"], Dir);
                           (final, File "provisioned")]))
    0 (Some print) None [].

(** The test module provisioned, and after the second step of another run. *)
Definition w_step2_provisioned : world :=
  Build_world
    (list_to_map (tree ++ [(["var"; "lib"; "puflib"; "temp"], Dir);
                           (temp, File ("2" +:+ nl));
                           (["var"; "lib"; "puflib"; "final"], Dir);
                           (final, File "provisioned")]))
    0 (Some print) None [].

End Demo.

(** ** The formatting and scanning functions at work *)

Example sprintf_report :
  sprintf "%s (%s): %s" [arg_s "warn"; arg_s "m"; arg_s "x y"] = "warn (m): x y".
Proof. reflexivity. Qed.

Example sprintf_step : sprintf ("%d" +:+ nl) [arg_d 2] = "2" +:+ nl.
Proof. reflexivity. Qed.

Example scan_d_step : scan_d (" 12" +:+ nl) = Some (12, nl).
Proof. reflexivity. Qed.

Example scan_d_wraps : scan_d "4294967297" = Some (1, "").
Proof. reflexivity. Qed.

Example scan_d_saturates :
  scan_d "18446744073709551617" = Some (-1, "")
  ∧ scan_d "-18446744073709551617" = Some (0, "").
Proof. split; reflexivity. Qed.

Example scan_d_junk : scan_d "x1" = None.
Proof. reflexivity. Qed.

(** ** Running a call *)

Lemma bind_run {A B} (m : M A) (k : A → M B) w x w' :
  m w = Some (x, w') → (m ≫= k) w = k x w'.
Proof. intros E. unfold mbind, M_bind. by rewrite E. Qed.

Lemma fmap_run {A B} (f : A → B) (m : M A) w x w' :
  m w = Some (x, w') → (f <$> m) w = Some (f x, w').
Proof. intros E. unfold fmap, M_fmap. by rewrite E. Qed.

Lemma bind_get_world {B} (k : world → M B) w : (get_world ≫= k) w = k w w.
Proof. reflexivity. Qed.

Lemma bind_modify {B} f (k : unit → M B) w : (modify f ≫= k) w = k tt (f w).
Proof. reflexivity. Qed.

Lemma bind_ret {A B} (x : A) (k : A → M B) w :
  ((mret x : M A) ≫= k) w = k x w.
Proof. reflexivity. Qed.

Lemma bind_fail_with {A B} e (x : A) (k : A → M B) w :
  (fail_with e x ≫= k) w = k x (set_errno e w).
Proof. reflexivity. Qed.

Lemma bind_assoc {A B C} (m : M A) (k1 : A → M B) (k2 : B → M C) w :
  ((m ≫= k1) ≫= k2) w = (m ≫= λ x, k1 x ≫= k2) w.
Proof. unfold mbind, M_bind. by destruct (m w) as [[x w']|]. Qed.

Lemma bind_fmap_get_world {A B} (f : world → A) (k : A → M B) w :
  ((f <$> get_world) ≫= k) w = k (f w) w.
Proof. reflexivity. Qed.

Lemma ret_run {A} (x : A) w : (mret x : M A) w = Some (x, w).
Proof. reflexivity. Qed.

Lemma fail_with_run {A} e (x : A) w : fail_with e x w = Some (x, set_errno e w).
Proof. reflexivity. Qed.

Lemma modify_run f w : modify f w = Some (tt, f w).
Proof. reflexivity. Qed.

Lemma set_errno_same w : set_errno (errno w) w = w.
Proof. by destruct w. Qed.

Lemma set_fs_same w : set_fs (fs w) w = w.
Proof. by destruct w. Qed.

(** Step through the calls whose outcome is known by definition. *)
Ltac msimpl :=
  repeat (progress
    (rewrite ?bind_assoc, ?bind_get_world, ?bind_modify, ?bind_ret,
       ?bind_fail_with, ?bind_fmap_get_world, ?ret_run, ?fail_with_run,
       ?modify_run;
     cbn [fs errno out STATUS_CALLBACK QUERY_CALLBACK
          set_fs set_errno set_out f_path f_pos free];
     cbv beta iota)).

Ltac msimpl_in H :=
  repeat (progress
    (rewrite ?bind_assoc, ?bind_get_world, ?bind_modify, ?bind_ret,
       ?bind_fail_with, ?bind_fmap_get_world, ?ret_run, ?fail_with_run,
       ?modify_run in H;
     cbn [fs errno out STATUS_CALLBACK QUERY_CALLBACK
          set_fs set_errno set_out f_path f_pos free] in H;
     cbv beta iota in H)).

(** Run the first call of a sequence with the equation [E] for it. *)
Tactic Notation "run" constr(E) :=
  rewrite (bind_run _ _ _ _ _ E); cbv beta iota.

Section Proofs.
Context `{!platform}.

(** *** Reporting *)

Lemma sprintf_report_format (a b c : string) :
  sprintf "%s (%s): %s" [arg_s a; arg_s b; arg_s c]
  = a +:+ " (" +:+ b +:+ "): " +:+ c.
Proof.
  assert (E : c +:+ "" = c).
  { induction c as [|x c IH]; [done|].
    change (String x c +:+ "") with (String x (c +:+ "")). by rewrite IH. }
  cbn. by rewrite E.
Qed.

Lemma call_STATUS_CALLBACK_run message w h :
  STATUS_CALLBACK w = Some h →
  call_STATUS_CALLBACK message w = Some (tt, set_out (h message (out w)) w).
Proof. intros E. unfold call_STATUS_CALLBACK, mbind, M_bind; cbn. by rewrite E. Qed.

(** One report changes the console by one call of the handler and may
    disturb [errno]; the file system and the slots stay. *)
Lemma puflib_report_run module level message w h :
  STATUS_CALLBACK w = Some h →
  ∃ e text,
    puflib_report module level message w
    = Some (tt, Build_world (fs w) e (Some h) (QUERY_CALLBACK w) (h text (out w)))
    ∧ text = match fault (sys_malloc (S (String.length
                      (formatted_message module level message)))) with
             | Some _ => fallback_message
             | None => formatted_message module level message
             end.
Proof.
  intros E. unfold puflib_report, puflib_asprintf.
  fold (formatted_message module level message).
  destruct (fault _) as [e|].
  - exists e, fallback_message. split; [|done].
    unfold mbind, M_bind, fail_with; cbn.
    rewrite call_STATUS_CALLBACK_run with (h := h); [|done].
    unfold set_out, set_errno; cbn. by rewrite E.
  - exists (free_errno (errno w)), (formatted_message module level message).
    split; [|done].
    unfold mbind, M_bind, mret, M_ret; cbn.
    rewrite call_STATUS_CALLBACK_run with (h := h); [|done].
    unfold free, modify, set_out, set_errno; cbn. by rewrite E.
Qed.

(** Without a status handler a report is a call through a null pointer. *)
Lemma puflib_report_no_handler module level message w :
  STATUS_CALLBACK w = None → puflib_report module level message w = None.
Proof.
  intros E. unfold puflib_report, puflib_asprintf, call_STATUS_CALLBACK.
  destruct (fault _); msimpl; by rewrite E.
Qed.

(** *** Paths *)

Lemma elem_of_ancestors_from pre p q :
  q ∈ ancestors_from pre p ↔ ∃ k, k ≠ [] ∧ k `prefix_of` p ∧ q = pre ++ k.
Proof.
  revert pre. induction p as [|c p IH]; intros pre; simpl.
  - rewrite elem_of_nil. split; [done|].
    intros (k & Hk & Hp & _). by apply prefix_nil_inv in Hp.
  - rewrite elem_of_cons, IH. split.
    + intros [->|(k & Hk & Hp & ->)].
      * exists [c]. split; [done|]. split; [|done]. apply prefix_cons, prefix_nil.
      * exists (c :: k). split; [done|]. split; [by apply prefix_cons|].
        by rewrite <- app_assoc.
    + intros (k & Hk & Hp & ->). destruct k as [|c' k]; [done|].
      pose proof (prefix_cons_inv_1 _ _ _ _ Hp) as ->.
      apply prefix_cons_inv_2 in Hp.
      destruct k as [|c'' k]; [by left|]. right.
      exists (c'' :: k). by rewrite <- app_assoc.
Qed.

Lemma elem_of_prefixes p q : q ∈ prefixes p ↔ q ≠ [] ∧ q `prefix_of` p.
Proof.
  unfold prefixes. rewrite elem_of_ancestors_from. split.
  - by intros (k & Hk & Hp & ->).
  - intros [Hq Hp]. by exists q.
Qed.

Lemma parent_snoc p : p ≠ [] → ∃ c, p = parent p ++ [c].
Proof.
  intros Hp. exists (List.last p EmptyString).
  by apply app_removelast_last.
Qed.

Lemma parent_prefix p : parent p `prefix_of` p.
Proof.
  destruct p as [|c p]; [done|].
  destruct (parent_snoc (c :: p)) as [x Hx]; [done|].
  by exists [x].
Qed.

Lemma not_prefix_parent p : p ≠ [] → ¬ p `prefix_of` parent p.
Proof.
  intros Hp Hpre. destruct (parent_snoc p Hp) as [c Hc].
  rewrite Hc in Hpre at 1. by apply prefix_snoc_not in Hpre.
Qed.

Lemma not_elem_of_prefixes_parent p : p ∉ prefixes (parent p).
Proof.
  rewrite elem_of_prefixes. intros [Hp Hpre]. by apply not_prefix_parent in Hpre.
Qed.

Lemma self_elem_of_prefixes p : p ≠ [] → p ∈ prefixes p.
Proof. intros. by apply elem_of_prefixes. Qed.

Lemma lookup_node_ne m p : p ≠ [] → lookup_node m p = m !! p.
Proof. by destruct p. Qed.

Lemma lookup_node_mono (m m' : gmap path node) p x :
  (∀ q y, m !! q = Some y → m' !! q = Some y) →
  lookup_node m p = Some x → lookup_node m' p = Some x.
Proof. destruct p; cbn; auto. Qed.

(** *** The platform calls *)

Lemma free_run {A} (p : option A) w :
  ∃ e, free p w = Some (tt, set_errno e w).
Proof.
  destruct p; cbn.
  - by eexists.
  - exists (errno w). by rewrite set_errno_same.
Qed.

Lemma puflib_check_access_run p d w :
  ∃ e, puflib_check_access p d w
       = Some (negb (is_store (fs w) p d), set_errno e w).
Proof.
  unfold puflib_check_access, is_store, mbind, M_bind; cbn.
  destruct (lookup_node (fs w) p) as [[c|]|], d; cbn;
    unfold fail_with, mret, M_ret; eauto.
  all: exists (errno w); by rewrite set_errno_same.
Qed.

(** [mkdirs] only ever adds directories at paths of its list that were
    free; when it succeeds every path of the list is a directory. *)
Lemma mkdirs_frame ps w :
  ∃ r m e,
    mkdirs ps w
    = Some (r, Build_world m e (STATUS_CALLBACK w) (QUERY_CALLBACK w) (out w))
    ∧ (∀ q x, fs w !! q = Some x → m !! q = Some x)
    ∧ (∀ q, q ∉ ps → m !! q = fs w !! q)
    ∧ (∀ q x, m !! q = Some x → fs w !! q = Some x ∨ x = Dir)
    ∧ (r = false → ∀ q, q ∈ ps → lookup_node m q = Some Dir).
Proof.
  revert w. induction ps as [|p ps IH]; intros w.
  - exists false, (fs w), (errno w). destruct w; cbn. split; [done|].
    repeat split; auto. intros _ q Hq. by apply elem_of_nil in Hq.
  - cbn [mkdirs]. unfold mbind at 1, M_bind at 1; cbn [get_world].
    destruct (lookup_node (fs w) p) as [[c|]|] eqn:Hp.
    + exists true, (fs w), ENOTDIR. repeat split; auto. done.
    + destruct (IH w) as (r & m & e & Hrun & Hmono & Hout & Hnew & Hok).
      exists r, m, e. split; [done|]. split; [done|]. split.
      { intros q Hq. apply Hout. rewrite elem_of_cons in Hq. tauto. }
      split; [done|]. intros Hr q [->|Hq]%elem_of_cons; [|by apply Hok].
      by apply (lookup_node_mono (fs w)).
    + destruct (fault (sys_mkdir p)) as [e|].
      { exists true, (fs w), e. repeat split; auto. done. }
      unfold mbind, M_bind, modify.
      destruct (IH (set_fs (<[p:=Dir]> (fs w)) w))
        as (r & m & e & Hrun & Hmono & Hout & Hnew & Hok).
      cbn in Hrun, Hmono, Hout, Hnew. exists r, m, e. split; [exact Hrun|].
      assert (Hfree : fs w !! p = None).
      { destruct p; [done|]. exact Hp. }
      split.
      { intros q x Hq. apply Hmono. rewrite lookup_insert_ne; [done|].
        intros ->. congruence. }
      split.
      { intros q Hq. rewrite elem_of_cons in Hq.
        rewrite Hout by tauto. apply lookup_insert_ne. intros ->. tauto. }
      split.
      { intros q x Hq. apply Hnew in Hq as [Hq|Hq]; [|by right].
        destruct (decide (p = q)) as [->|Hne].
        - rewrite lookup_insert_eq in Hq. right. congruence.
        - rewrite lookup_insert_ne in Hq by done. by left. }
      intros Hr q [->|Hq]%elem_of_cons; [|by apply Hok].
      destruct p; [done|]. cbn. apply Hmono. by rewrite lookup_insert_eq.
Qed.

Lemma puflib_create_and_open_Some p mode w f w' :
  puflib_create_and_open p mode w = Some (Some f, w') →
  p ≠ [] ∧ ∃ c, fs w' !! p = Some (File c).
Proof.
  unfold puflib_create_and_open. msimpl.
  destruct (fault (sys_creat p)); [done|].
  destruct p as [|x p]; [done|]. cbn [lookup_node].
  destruct (fs w !! (x :: p)); [done|].
  destruct (lookup_node (fs w) (parent (x :: p))) as [[?|]|]; [done| |done].
  unfold fopen. msimpl.
  destruct (fault (sys_fopen (x :: p))); [done|].
  destruct (String.eqb mode "r+").
  - cbn [lookup_node]. rewrite lookup_insert_eq. msimpl.
    intros [= <- <-]. split; [done|]. cbn. rewrite lookup_insert_eq. eauto.
  - destruct (String.eqb mode "w"); [|done].
    cbn [lookup_node]. rewrite lookup_insert_eq. msimpl.
    intros [= <- <-]. split; [done|]. cbn. rewrite lookup_insert_eq. eauto.
Qed.

Lemma is_store_dir m p : lookup_node m p = Some Dir → is_store m p true = true.
Proof. unfold is_store. by intros ->. Qed.

Lemma is_store_file m p c :
  p ≠ [] → m !! p = Some (File c) → is_store m p false = true.
Proof. unfold is_store. intros Hp E. by rewrite lookup_node_ne, E. Qed.

(** *** Re-attaching to and removing stores *)

Lemma puflib_get_nv_store_run module type w :
  ∃ e, puflib_get_nv_store module type w
       = Some (if store_present w module type
               then puflib_get_nv_store_path (name module) type else None,
               set_errno e w)
       ∧ (store_present w module type = true → e = errno w)
       ∧ (store_present w module type = false →
          is_Some (puflib_get_nv_store_path (name module) type) → e = EACCES).
Proof.
  unfold puflib_get_nv_store, store_present.
  destruct (puflib_get_nv_store_path (name module) type) as [p|].
  - destruct (puflib_check_access_run p (storage_type_is_dir type) w) as [e He].
    run He. unfold puflib_check_access in He. msimpl_in He.
    unfold is_store in *.
    destruct (lookup_node (fs w) p) as [[c|]|], (storage_type_is_dir type);
      cbn [negb]; msimpl_in He.
    all: try (exists EACCES; split; [reflexivity | by split]).
    all: injection He as Hw; rewrite <- Hw.
    all: exists (errno w); rewrite set_errno_same; by repeat split.
  - exists (errno w). rewrite set_errno_same. repeat split; try done.
Qed.

Lemma remove_file_run p c w :
  p ≠ [] → fs w !! p = Some (File c) →
  remove p w
  = match fault (sys_remove p) with
    | Some e => Some (true, set_errno e w)
    | None => Some (false, set_fs (delete p (fs w)) w)
    end.
Proof.
  intros Hp E. unfold remove. msimpl.
  destruct (fault (sys_remove p)); [done|].
  destruct p; [done|]. by rewrite E.
Qed.

(** [puflib_delete_tree] only removes entries; when it succeeds its
    argument is gone. *)
Lemma puflib_delete_tree_run p w :
  ∃ r m e,
    puflib_delete_tree p w
    = Some (r, Build_world m e (STATUS_CALLBACK w) (QUERY_CALLBACK w) (out w))
    ∧ (∀ q x, m !! q = Some x → fs w !! q = Some x)
    ∧ (r = false → p ≠ [] ∧ m !! p = None).
Proof.
  unfold puflib_delete_tree. msimpl.
  destruct p as [|c p].
  { exists true, (fs w), EBUSY. by repeat split. }
  destruct (fs w !! (c :: p)) as [x|] eqn:E.
  2:{ exists true, (fs w), ENOENT. by repeat split. }
  destruct (blocked (fs w) (c :: p)) as [|[q e] bs].
  - msimpl. eexists false, _, _. split; [reflexivity|]. split.
    + intros q y Hq. by apply map_lookup_filter_Some in Hq as [Hq _].
    + intros _. split; [done|]. apply map_lookup_filter_None. right.
      intros y _ Hn. by apply Hn.
  - msimpl. eexists true, _, _. split; [reflexivity|]. split; [|done].
    intros q' y Hq. by apply map_lookup_filter_Some in Hq as [Hq _].
Qed.

Lemma is_store_shrink (m m' : gmap path node) p d :
  (∀ q x, m' !! q = Some x → m !! q = Some x) →
  is_store m p d = false → is_store m' p d = false.
Proof.
  intros Hsub. unfold is_store. destruct p as [|c p]; [done|]. cbn.
  destruct (m' !! (c :: p)) as [x|] eqn:E; [|by destruct d].
  by rewrite (Hsub _ _ E).
Qed.

Lemma is_store_None m p d : p ≠ [] → m !! p = None → is_store m p d = false.
Proof. intros Hp E. unfold is_store. rewrite lookup_node_ne, E by done. by destruct d. Qed.

Lemma is_store_file_inv m p :
  is_store m p false = true → p ≠ [] ∧ ∃ c, m !! p = Some (File c).
Proof.
  unfold is_store. destruct p as [|x p]; [done|]. cbn.
  destruct (m !! (x :: p)) as [[c|]|]; [|done..]. intros _. split; [done|]. eauto.
Qed.

(** *** More on the platform calls *)

Lemma puflib_report_fmt_run module level fmt ap w h :
  STATUS_CALLBACK w = Some h →
  ∃ e text,
    puflib_report_fmt module level fmt ap w
    = Some (tt, Build_world (fs w) e (Some h) (QUERY_CALLBACK w) (h text (out w))).
Proof.
  intros E. unfold puflib_report_fmt, puflib_asprintf.
  destruct (fault _) as [e|]; msimpl.
  - rewrite call_STATUS_CALLBACK_run with (h := h) by done.
    unfold set_out; cbn. rewrite E. by eexists _, _.
  - destruct (puflib_report_run module level (sprintf fmt ap) w h E)
      as (e & text & Hrun & _).
    run Hrun. unfold free, modify; cbn. by eexists _, _.
Qed.

Lemma puflib_perror_run module w h :
  STATUS_CALLBACK w = Some h →
  ∃ e text,
    puflib_perror module w
    = Some (tt, Build_world (fs w) e (Some h) (QUERY_CALLBACK w) (h text (out w))).
Proof.
  intros E. unfold puflib_perror. msimpl.
  destruct (puflib_report_run module STATUS_ERROR (strerror (errno w)) w h E)
    as (e & text & Hrun & _).
  by exists e, text.
Qed.

Lemma puflib_query_run module key prompt buffer buflen w :
  ∃ r e o,
    puflib_query module key prompt buffer buflen w
    = Some (r, Build_world (fs w) e (STATUS_CALLBACK w) (QUERY_CALLBACK w) o).
Proof.
  unfold puflib_query. msimpl. destruct (QUERY_CALLBACK w) as [handler|] eqn:E.
  - destruct (handler _ _ _ _ _ _) as [[r b] c]. msimpl.
    unfold set_out. rewrite E. by eexists _, _, _.
  - msimpl. unfold set_errno. rewrite E. by eexists _, _, _.
Qed.

Lemma fopen_existing p c w :
  fault (sys_fopen p) = None →
  lookup_node (fs w) p = Some (File c) →
  fopen p "r+" w = Some (Some (Build_FILE p 0), w).
Proof.
  intros Hf E. unfold fopen. msimpl. rewrite Hf. cbn [String.eqb Ascii.eqb].
  change (String.eqb "r+" "r+") with true. cbv iota. by rewrite E.
Qed.

Lemma fopen_truncate p c w :
  fault (sys_fopen p) = None →
  lookup_node (fs w) p = Some (File c) →
  fopen p "w" w
  = Some (Some (Build_FILE p 0), set_fs (<[p := File ""]> (fs w)) w).
Proof.
  intros Hf E. unfold fopen. msimpl. rewrite Hf.
  change (String.eqb "w" "r+") with false.
  change (String.eqb "w" "w") with true. cbv iota. by rewrite E.
Qed.

Lemma fwrite_string_run p pos data c w :
  fault (sys_write p) = None →
  fs w !! p = Some (File c) →
  fwrite_string (Build_FILE p pos) data w
  = Some (Some (Build_FILE p (pos + String.length data)),
          set_fs (<[p := File (write_at pos data c)]> (fs w)) w).
Proof. intros Hf E. unfold fwrite_string. msimpl. by rewrite Hf, E. Qed.

Lemma substring_all s : substring 0 (String.length s) s = s.
Proof. induction s as [|c s IH]; cbn; [done | by rewrite IH]. Qed.

Lemma fscanf_d_run p c w :
  fs w !! p = Some (File c) →
  ∃ r f e, fscanf_d (Build_FILE p 0) w = Some ((r, f), set_errno e w)
         ∧ default 0 r = persisted_step c
         ∧ f_path f = p.
Proof.
  intros E. unfold fscanf_d, persisted_step, scan_d. msimpl. rewrite E.
  rewrite Nat.sub_0_r, substring_all.
  destruct (scan_number c) as [[v rest]|]; msimpl.
  - destruct (strtol_value v =? v); msimpl; [|by eexists _, _, _].
    eexists _, _, (errno w). by rewrite set_errno_same.
  - exists None, (Build_FILE p 0), (errno w). by rewrite set_errno_same.
Qed.

Lemma lookup_add_dirs (ps : list path) (m : gmap path node) (q : path) :
  add_dirs ps m !! q
  = match m !! q with
    | Some x => Some x
    | None => if decide (q ∈ ps ∧ q ≠ []) then Some Dir else None
    end.
Proof.
  revert m. induction ps as [|p ps IH]; intros m; cbn [add_dirs].
  - destruct (m !! q); [done|].
    destruct (decide (q ∈ [] ∧ q ≠ [])) as [[Hd _]|Hd]; [|done].
    by apply elem_of_nil in Hd.
  - destruct (lookup_node m p) as [x|] eqn:Hp.
    + rewrite IH. destruct (m !! q) eqn:Hq; [done|].
      destruct (decide (q ∈ ps ∧ q ≠ [])) as [[Hin Hne]|Hn],
               (decide (q ∈ p :: ps ∧ q ≠ [])) as [[Hin' Hne']|Hn']; try done.
      * exfalso. apply Hn'. split; [apply elem_of_cons; tauto | tauto].
      * exfalso. apply elem_of_cons in Hin' as [->|Hin']; [|tauto].
        rewrite lookup_node_ne in Hp by done. congruence.
    + assert (Hne : p ≠ []) by (by intros ->).
      rewrite lookup_node_ne in Hp by done.
      rewrite IH. destruct (decide (p = q)) as [->|Hpq].
      * rewrite lookup_insert_eq, Hp.
        destruct (decide (q ∈ q :: ps ∧ q ≠ [])) as [Hd|Hd]; [done|].
        exfalso. apply Hd. split; [apply elem_of_cons; tauto | done].
      * rewrite lookup_insert_ne by done. destruct (m !! q); [done|].
        destruct (decide (q ∈ ps ∧ q ≠ [])) as [[Hin Hne1]|Hn],
                 (decide (q ∈ p :: ps ∧ q ≠ [])) as [[Hin' Hne']|Hn']; try done.
        -- exfalso. apply Hn'. split; [apply elem_of_cons; tauto | tauto].
        -- exfalso. apply elem_of_cons in Hin' as [->|Hin']; tauto.
Qed.

Lemma mkdirs_run ps w :
  (∀ q, q ∈ ps → fault (sys_mkdir q) = None) →
  (∀ q c, q ∈ ps → fs w !! q ≠ Some (File c)) →
  mkdirs ps w = Some (false, set_fs (add_dirs ps (fs w)) w).
Proof.
  revert w. induction ps as [|p ps IH]; intros w Hfault Hclear.
  - cbn. by rewrite set_fs_same.
  - cbn [mkdirs add_dirs]. msimpl.
    assert (Hin : p ∈ p :: ps) by (apply elem_of_cons; tauto).
    destruct (lookup_node (fs w) p) as [[c|]|] eqn:Hp.
    + exfalso. destruct p; [done|]. by apply (Hclear _ c) in Hin.
    + apply IH; intros; [apply Hfault | apply Hclear]; apply elem_of_cons; tauto.
    + rewrite (Hfault p Hin). msimpl.
      rewrite IH; [done| |].
      * intros. apply Hfault, elem_of_cons; tauto.
      * intros q c Hq. cbn [fs set_fs].
        destruct (decide (p = q)) as [->|Hne].
        -- by rewrite lookup_insert_eq.
        -- rewrite lookup_insert_ne by done. apply Hclear, elem_of_cons; tauto.
Qed.

Lemma housed_parent m p : housed m p → lookup_node m (parent p) = Some Dir.
Proof.
  intros Hh. destruct (decide (parent p = [])) as [->|Hne]; [done|].
  rewrite lookup_node_ne by done. by apply Hh, self_elem_of_prefixes.
Qed.

Lemma add_dirs_housed m p : clear_way m p → housed (add_dirs (prefixes (parent p)) m) p.
Proof.
  intros Hc q Hq. rewrite lookup_add_dirs.
  destruct (m !! q) as [[c|]|] eqn:E; [by apply Hc in E | done |].
  rewrite decide_True; [done|]. split; [done|]. by apply elem_of_prefixes in Hq as [? _].
Qed.

Lemma housed_insert m p q x : q ∉ prefixes (parent p) → housed m p → housed (<[q := x]> m) p.
Proof.
  intros Hq Hh r Hr. rewrite lookup_insert_ne; [by apply Hh|]. by intros ->.
Qed.

(** *** Creating and deleting a file store *)

Lemma mkdirs_id ps w :
  (∀ q, q ∈ ps → lookup_node (fs w) q = Some Dir) →
  mkdirs ps w = Some (false, w).
Proof.
  induction ps as [|p ps IH]; intros Hd; [done|].
  cbn [mkdirs]. msimpl. rewrite Hd by (apply elem_of_cons; tauto).
  apply IH. intros. apply Hd, elem_of_cons; tauto.
Qed.

Lemma create_file_store_run module type p w :
  storage_type_is_dir type = false →
  puflib_get_nv_store_path (name module) type = Some p →
  p ≠ [] → fs w !! p = None → clear_way (fs w) p →
  (∀ q, q ∈ prefixes (parent p) → fault (sys_mkdir q) = None) →
  fault (sys_creat p) = None → fault (sys_fopen p) = None →
  puflib_create_nv_store module type w
  = Some (Some p,
          set_fs (<[p := File ""]> (add_dirs (prefixes (parent p)) (fs w))) w).
Proof.
  intros Hdir Hpath Hp Hfree Hclear Hmk Hcr Hop.
  unfold puflib_create_nv_store. rewrite Hpath, Hdir. msimpl. cbn [negb].
  unfold puflib_create_directory_tree.
  run (mkdirs_run (prefixes (parent p)) w Hmk
         (λ q c Hq, Hclear q c Hq)).
  unfold puflib_create_and_open. msimpl. rewrite Hcr.
  rewrite lookup_node_ne, lookup_add_dirs, Hfree by done.
  rewrite decide_False
    by (intros [Hin _]; by apply not_elem_of_prefixes_parent in Hin).
  rewrite (housed_parent _ _ (add_dirs_housed _ _ Hclear)). msimpl.
  erewrite (bind_run _ _ _ _ _ (fopen_existing p "" _ Hop _)). 
  - by msimpl.
  Unshelve. cbn [fs set_fs]. rewrite lookup_node_ne by done. apply lookup_insert_eq.
Qed.

Lemma create_file_store_exists module type p x w :
  storage_type_is_dir type = false →
  puflib_get_nv_store_path (name module) type = Some p →
  p ≠ [] → fs w !! p = Some x → housed (fs w) p →
  ∃ e, puflib_create_nv_store module type w = Some (None, set_errno e w).
Proof.
  intros Hdir Hpath Hp Hthere Hh.
  unfold puflib_create_nv_store. rewrite Hpath, Hdir. msimpl. cbn [negb].
  unfold puflib_create_directory_tree.
  assert (Hdirs : ∀ q, q ∈ prefixes (parent p) → lookup_node (fs w) q = Some Dir).
  { intros q Hq. destruct q; [done|]. by apply Hh. }
  run (mkdirs_id (prefixes (parent p)) w Hdirs).
  unfold puflib_create_and_open. msimpl.
  destruct (fault (sys_creat p)) as [e|]; msimpl.
  - by eexists.
  - rewrite lookup_node_ne, Hthere by done. msimpl. by eexists.
Qed.

(** Whatever happens, [puflib_create_nv_store] removes and overwrites
    nothing, and it does not succeed where an entry is in the way. *)
Lemma puflib_create_nv_store_frame module type w :
  ∃ r m e,
    puflib_create_nv_store module type w
    = Some (r, Build_world m e (STATUS_CALLBACK w) (QUERY_CALLBACK w) (out w))
    ∧ (∀ q x, fs w !! q = Some x → m !! q = Some x)
    ∧ (∀ p x, puflib_get_nv_store_path (name module) type = Some p →
              storage_type_is_dir type = false →
              lookup_node (fs w) p = Some x → r = None).
Proof.
  unfold puflib_create_nv_store.
  destruct (puflib_get_nv_store_path (name module) type) as [p|].
  2:{ exists None, (fs w), (errno w). destruct w. by repeat split. }
  assert (∃ present e0,
    (if storage_type_is_dir type then negb <$> puflib_check_access p true
     else mret false) w = Some (present, set_errno e0 w)
    ∧ (storage_type_is_dir type = false → present = false))
    as (present & e0 & Hrun & Hfile).
  { destruct (storage_type_is_dir type).
    - destruct (puflib_check_access_run p true w) as [e He].
      eexists _, e. by rewrite (fmap_run negb _ _ _ _ He).
    - exists false, (errno w). by rewrite set_errno_same. }
  run Hrun. destruct present.
  { msimpl. eexists None, _, _. split; [reflexivity|]. split; [done|].
    intros ? ? _ Hd. by apply Hfile in Hd. }
  unfold puflib_create_directory_tree.
  destruct (mkdirs_frame
              (prefixes (if negb (storage_type_is_dir type) then parent p else p))
              (set_errno e0 w)) as (r & m & e & Hmk & Hmono & _ & _ & _).
  run Hmk. cbn [fs set_errno] in Hmono. destruct r.
  { msimpl. eexists None, _, _. split; [reflexivity|]. by split. }
  destruct (storage_type_is_dir type) eqn:Hdir; cbn [negb].
  { msimpl. eexists _, _, _. split; [reflexivity|]. by split. }
  unfold puflib_create_and_open. msimpl.
  destruct (fault (sys_creat p)) as [e'|].
  { msimpl. eexists None, _, _. split; [reflexivity|]. by split. }
  destruct (lookup_node m p) as [x|] eqn:Hthere.
  { msimpl. eexists None, _, _. split; [reflexivity|]. by split. }
  assert (Hgone : ∀ x, lookup_node (fs w) p = Some x → False).
  { intros x Hx. apply (lookup_node_mono _ m) in Hx; [congruence | done]. }
  destruct (lookup_node m (parent p)) as [[c|]|].
  1,3: msimpl; eexists None, _, _; split; [reflexivity|]; split; [done|];
       intros ? ? [= <-] _ Hx; by apply Hgone in Hx.
  msimpl. unfold fopen. msimpl.
  assert (Hmono' : ∀ q x, fs w !! q = Some x → <[p:=File ""]> m !! q = Some x).
  { intros q x Hq. rewrite lookup_insert_ne; [by apply Hmono|].
    intros ->. destruct q; [done|]. cbn in Hthere. apply Hmono in Hq. congruence. }
  destruct (fault (sys_fopen p)).
  { msimpl. eexists None, _, _. split; [reflexivity|]. split; [done|].
    intros ? ? [= <-] _ Hx; by apply Hgone in Hx. }
  change (String.eqb "r+" "r+") with true. cbv iota.
  destruct (lookup_node (<[p:=File ""]> m) p) as [[c|]|]; msimpl.
  all: eexists _, _, _; split; [reflexivity|]; split; [done|].
  all: intros ? ? [= <-] _ Hx; by apply Hgone in Hx.
Qed.

Lemma delete_file_store_run module type p c w :
  storage_type_is_dir type = false →
  puflib_get_nv_store_path (name module) type = Some p →
  p ≠ [] → fs w !! p = Some (File c) →
  fault (sys_remove p) = None →
  ∃ e, puflib_delete_nv_store module type w
       = Some (false, set_errno e (set_fs (delete p (fs w)) w)).
Proof.
  intros Hdir Hpath Hp Hthere Hrm.
  unfold puflib_delete_nv_store. rewrite Hpath, Hdir.
  pose proof (remove_file_run p c w Hp Hthere) as Hrun. rewrite Hrm in Hrun.
  run Hrun. msimpl. by eexists.
Qed.

(** *** The test module *)

Lemma store_present_file w module type p c :
  puflib_get_nv_store_path (name module) type = Some p →
  storage_type_is_dir type = false →
  lookup_node (fs w) p = Some (File c) →
  store_present w module type = true.
Proof. intros Hp Hd E. unfold store_present, is_store. by rewrite Hp, Hd, E. Qed.

(** Run a write to the stream at [p], the file holding [c]. *)
Ltac write_step c Hfault Hfile :=
  lazymatch goal with
  | |- context [(fwrite_string (Build_FILE ?p ?pos) ?data ≫= _) ?ww] =>
      rewrite (bind_run _ _ _ _ _
                 (fwrite_string_run p pos data c ww Hfault Hfile));
      msimpl
  end.

(** Run one report of a sequence, the handler being [h]. *)
Ltac report_step h :=
  lazymatch goal with
  | |- context [(puflib_report ?m ?l ?s ≫= _) ?w] =>
      let e := fresh "e" in
      let t := fresh "text" in
      let E := fresh "E" in
      destruct (puflib_report_run m l s w h ltac:(eassumption || reflexivity))
        as (e & t & E & _);
      run E; clear E; msimpl
  end.

(** After a failed creation [provision] goes on with whatever store it can
    re-attach to, having told the handler so. *)
Lemma provision_resumes_told w w1 h p c :
  STATUS_CALLBACK w = Some h →
  puflib_create_nv_store MODULE_INFO STORAGE_TEMP_FILE w = Some (None, w1) →
  puflib_get_nv_store_path (name MODULE_INFO) STORAGE_TEMP_FILE = Some p →
  lookup_node (fs w1) p = Some (File c) →
  fault (sys_fopen p) = None →
  ∃ e text,
    provision w
    = provision_continue (Build_FILE p 0)
        (Build_world (fs w1) e (Some h) (QUERY_CALLBACK w) (h text (out w)))
    ∧ (text = formatted_message MODULE_INFO STATUS_INFO
                "could not create or NV store exists, continuing provision"
       ∨ text = fallback_message).
Proof.
  intros Hh Hcreate Hpath Hthere Hop. unfold provision. run Hcreate.
  destruct (puflib_create_nv_store_frame MODULE_INFO STORAGE_TEMP_FILE w)
    as (r & m & e0 & Hrun & _).
  rewrite Hrun in Hcreate. injection Hcreate as -> <-.
  cbn [fs] in Hthere.
  match goal with
  | |- context [(puflib_report ?a ?l ?s ≫= _) ?ww] =>
      destruct (puflib_report_run a l s ww h Hh) as (e & text & E & Htext);
      run E; clear E; msimpl
  end.
  match goal with
  | |- context [(puflib_get_nv_store _ _ ≫= _) ?w] =>
      destruct (puflib_get_nv_store_run MODULE_INFO STORAGE_TEMP_FILE w)
        as (e1 & E1 & _);
      rewrite (store_present_file w MODULE_INFO STORAGE_TEMP_FILE p c) in E1
        by done;
      rewrite Hpath in E1; run E1; clear E1
  end.
  msimpl.
  erewrite (bind_run _ _ _ _ _ (fopen_existing p c _ Hop _)).
  - msimpl. eexists _, text. split; [reflexivity|].
    rewrite Htext. destruct (fault (sys_malloc _)); [by right | by left].
  Unshelve. done.
Qed.

Lemma provision_resumes w w1 h p c :
  STATUS_CALLBACK w = Some h →
  puflib_create_nv_store MODULE_INFO STORAGE_TEMP_FILE w = Some (None, w1) →
  puflib_get_nv_store_path (name MODULE_INFO) STORAGE_TEMP_FILE = Some p →
  lookup_node (fs w1) p = Some (File c) →
  fault (sys_fopen p) = None →
  ∃ e o,
    provision w
    = provision_continue (Build_FILE p 0)
        (Build_world (fs w1) e (Some h) (QUERY_CALLBACK w) o).
Proof.
  intros Hh Hcreate Hpath Hthere Hop.
  destruct (provision_resumes_told w w1 h p c Hh Hcreate Hpath Hthere Hop)
    as (e & text & -> & _).
  by eexists _, _.
Qed.

(** The branch of [provision_continue] for a step that is neither 1 nor 2. *)
Lemma provision_continue_corrupted w h p c :
  STATUS_CALLBACK w = Some h →
  fs w !! p = Some (File c) →
  persisted_step c ≠ 1 → persisted_step c ≠ 2 →
  ∃ e o,
    provision_continue (Build_FILE p 0) w
    = (puflib_report MODULE_INFO STATUS_WARN "NV store corrupted" ;;
       mret PROVISION_ERROR)
        (Build_world (fs w) e (Some h) (QUERY_CALLBACK w) o).
Proof.
  intros Hh Hthere H1 H2. unfold provision_continue. report_step h.
  destruct (fscanf_d_run p c (Build_world (fs w) e (Some h) (QUERY_CALLBACK w)
                                (h text (out w))) Hthere)
    as (r & f & ? & Hscan & Hstep & _).
  run Hscan. rewrite Hstep.
  destruct (Z.eqb_spec (persisted_step c) 1); [done|].
  destruct (Z.eqb_spec (persisted_step c) 2); [done|].
  unfold fclose. msimpl. by eexists _, _.
Qed.

Lemma first_step_written :
  write_at 0 (sprintf ("%d" +:+ nl) [arg_d 1]) "" = "1" +:+ nl.
Proof. reflexivity. Qed.

Lemma second_step_written :
  write_at 0 (sprintf ("%d" +:+ nl) [arg_d 2]) ("1" +:+ nl) = "2" +:+ nl.
Proof. reflexivity. Qed.

Lemma marker_written : write_at 0 "provisioned" "" = "provisioned".
Proof. reflexivity. Qed.

(** A fresh run: the store is created and step 1 written to it. *)
Lemma provision_fresh w h p :
  STATUS_CALLBACK w = Some h →
  (∀ c, fault c = None) →
  puflib_get_nv_store_path (name MODULE_INFO) STORAGE_TEMP_FILE = Some p →
  p ≠ [] → fs w !! p = None → clear_way (fs w) p →
  ∃ e o,
    provision w
    = Some (PROVISION_INCOMPLETE,
            Build_world
              (<[p := File ("1" +:+ nl)]>
                 (<[p := File ""]> (add_dirs (prefixes (parent p)) (fs w))))
              e (Some h) (QUERY_CALLBACK w) o).
Proof.
  intros Hh Hok Hpath Hp Hfree Hclear. unfold provision.
  run (create_file_store_run MODULE_INFO STORAGE_TEMP_FILE p w eq_refl Hpath Hp
         Hfree Hclear (λ q _, Hok _) (Hok _) (Hok _)).
  set (m := <[p := File ""]> (add_dirs (prefixes (parent p)) (fs w))).
  assert (Hm : m !! p = Some (File "")) by apply lookup_insert_eq.
  assert (Hopen : fopen p "r+" (set_fs m w) = Some (Some (Build_FILE p 0), set_fs m w)).
  { apply (fopen_existing p ""); [apply Hok|]. cbn [fs set_fs].
    by rewrite lookup_node_ne. }
  run Hopen. report_step h. unfold provision_start. report_step h.
  unfold fprintf. msimpl.
  write_step "" (Hok (sys_write p)) Hm. rewrite first_step_written. cbn [default]. report_step h.
  unfold fclose. msimpl.
  match goal with
  | |- context [(puflib_query ?a ?b ?c ?d ?n ≫= _) ?ww] =>
      destruct (puflib_query_run a b c d n ww) as ([r b'] & e3 & o3 & E3);
      run E3; clear E3
  end.
  msimpl.
  match goal with
  | |- context [(puflib_report_fmt ?a ?b ?c ?d ≫= _) ?ww] =>
      destruct (puflib_report_fmt_run a b c d ww h eq_refl) as (e4 & t4 & E4);
      run E4; clear E4
  end.
  msimpl. by eexists _, _.
Qed.

(** Resuming at step 1: the step is advanced to 2 in place. *)
Lemma provision_continue_step1 w h p c :
  STATUS_CALLBACK w = Some h →
  fault (sys_write p) = None →
  fs w !! p = Some (File c) →
  persisted_step c = 1 →
  ∃ e o,
    provision_continue (Build_FILE p 0) w
    = Some (PROVISION_INCOMPLETE,
            Build_world
              (<[p := File (write_at 0 (sprintf ("%d" +:+ nl) [arg_d 2]) c)]> (fs w))
              e (Some h) (QUERY_CALLBACK w) o).
Proof.
  intros Hh Hwr Hthere Hstep. unfold provision_continue. report_step h.
  destruct (fscanf_d_run p c (Build_world (fs w) e (Some h) (QUERY_CALLBACK w)
                                (h text (out w))) Hthere)
    as (r & f & ? & Hscan & Hr & Hf).
  run Hscan. rewrite Hr, Hstep. cbn [Z.eqb Pos.eqb]. cbv iota.
  report_step h. report_step h. unfold rewind, fprintf. msimpl. rewrite Hf.
  write_step c Hwr Hthere.
  unfold fclose. msimpl. by eexists _, _.
Qed.

(** Resuming at step 2: the temp store goes, the final store comes. *)
Lemma provision_continue_step2 w h p c pf :
  STATUS_CALLBACK w = Some h →
  (∀ c, fault c = None) →
  puflib_get_nv_store_path (name MODULE_INFO) STORAGE_TEMP_FILE = Some p →
  puflib_get_nv_store_path (name MODULE_INFO) STORAGE_FINAL_FILE = Some pf →
  p ≠ [] → pf ≠ [] →
  fs w !! p = Some (File c) →
  persisted_step c = 2 →
  delete p (fs w) !! pf = None →
  clear_way (delete p (fs w)) pf →
  ∃ e o,
    provision_continue (Build_FILE p 0) w
    = Some (PROVISION_COMPLETE,
            Build_world
              (<[pf := File "provisioned"]>
                 (<[pf := File ""]>
                    (<[pf := File ""]>
                       (add_dirs (prefixes (parent pf)) (delete p (fs w))))))
              e (Some h) (QUERY_CALLBACK w) o).
Proof.
  intros Hh Hok Hpath Hfinal Hp Hpf Hthere Hstep Hfree Hclear.
  unfold provision_continue. report_step h.
  destruct (fscanf_d_run p c (Build_world (fs w) e (Some h) (QUERY_CALLBACK w)
                                (h text (out w))) Hthere)
    as (r & f & ? & Hscan & Hr & Hf).
  run Hscan. rewrite Hr, Hstep. cbn [Z.eqb Pos.eqb]. cbv iota.
  unfold fclose. msimpl. report_step h. report_step h.
  match goal with
  | |- context [(puflib_delete_nv_store _ _ ≫= _) ?ww] =>
      destruct (delete_file_store_run MODULE_INFO STORAGE_TEMP_FILE p c ww
                  eq_refl Hpath Hp Hthere (Hok _)) as (e3 & E3);
      run E3; clear E3
  end.
  msimpl.
  match goal with
  | |- context [(puflib_create_nv_store _ _ ≫= _) ?ww] =>
      rewrite (bind_run _ _ _ _ _
                 (create_file_store_run MODULE_INFO STORAGE_FINAL_FILE pf ww
                    eq_refl Hfinal Hpf Hfree Hclear (λ q _, Hok _) (Hok _) (Hok _)))
  end.
  msimpl.
  set (m := <[pf := File ""]> (add_dirs (prefixes (parent pf)) (delete p (fs w)))).
  assert (Hm : m !! pf = Some (File "")) by apply lookup_insert_eq.
  match goal with
  | |- context [(fopen pf "w" ≫= _) ?ww] =>
      assert (Hopen : fopen pf "w" ww
                      = Some (Some (Build_FILE pf 0), set_fs (<[pf := File ""]> m) ww))
        by (apply (fopen_truncate pf ""); [apply Hok|];
            cbn [fs]; by rewrite lookup_node_ne);
      run Hopen; clear Hopen
  end.
  msimpl. unfold fputs. msimpl.
  assert (Hm' : <[pf := File ""]> m !! pf = Some (File ""))
    by apply lookup_insert_eq.
  write_step "" (Hok (sys_write pf)) Hm'.
  rewrite marker_written. by eexists _, _.
Qed.

Lemma provision_resume_housed w h p c :
  STATUS_CALLBACK w = Some h →
  puflib_get_nv_store_path (name MODULE_INFO) STORAGE_TEMP_FILE = Some p →
  p ≠ [] → fs w !! p = Some (File c) → housed (fs w) p →
  fault (sys_fopen p) = None →
  ∃ e o,
    provision w
    = provision_continue (Build_FILE p 0)
        (Build_world (fs w) e (Some h) (QUERY_CALLBACK w) o).
Proof.
  intros Hh Hpath Hp Hthere Hhoused Hop.
  destruct (create_file_store_exists MODULE_INFO STORAGE_TEMP_FILE p _ w
              eq_refl Hpath Hp Hthere Hhoused) as [e Hcreate].
  apply (provision_resumes w (set_errno e w) h p c); try done.
  cbn [fs set_errno]. by rewrite lookup_node_ne.
Qed.

Lemma prefix_of_parent (p q : path) : p `prefix_of` parent q → p `prefix_of` q.
Proof. intros Hp. etrans; [exact Hp | apply parent_prefix]. Qed.

Lemma land_lor_absorb a b : Z.land (Z.lor a b) b = b.
Proof.
  apply Z.bits_inj'. intros n _. rewrite Z.land_spec, Z.lor_spec.
  by destruct (Z.testbit a n), (Z.testbit b n).
Qed.

(** The probes of [puflib_module_status] when all four paths are derived. *)
Lemma puflib_module_status_run module w path_f path_d path_dis_f path_dis_d :
  puflib_get_nv_store_path (name module) STORAGE_FINAL_FILE = Some path_f →
  puflib_get_nv_store_path (name module) STORAGE_FINAL_DIR = Some path_d →
  puflib_get_nv_store_path (name module) STORAGE_DISABLED_FILE = Some path_dis_f →
  puflib_get_nv_store_path (name module) STORAGE_DISABLED_DIR = Some path_dis_d →
  ∃ e,
    puflib_module_status module w
    = Some (let status :=
              if is_store (fs w) path_dis_f false || is_store (fs w) path_dis_d true
              then Z.lor 0 (Z.lor MODULE_PROVISIONED MODULE_DISABLED) else 0 in
            if is_store (fs w) path_f false || is_store (fs w) path_d true
            then Z.lor status MODULE_PROVISIONED else status,
            set_errno e w).
Proof.
  intros Hf Hd Hdf Hdd. unfold puflib_module_status. rewrite Hf, Hd, Hdf, Hdd.
  destruct (puflib_check_access_run path_f false w) as [e1 E1].
  run (fmap_run negb _ _ _ _ E1).
  destruct (puflib_check_access_run path_d true (set_errno e1 w)) as [e2 E2].
  run (fmap_run negb _ _ _ _ E2).
  destruct (puflib_check_access_run path_dis_f false
              (set_errno e2 (set_errno e1 w))) as [e3 E3].
  run (fmap_run negb _ _ _ _ E3).
  destruct (puflib_check_access_run path_dis_d true
              (set_errno e3 (set_errno e2 (set_errno e1 w)))) as [e4 E4].
  run (fmap_run negb _ _ _ _ E4).
  cbn [fs set_errno]. rewrite !negb_involutive. by eexists.
Qed.

(** *** What a call leaves alone *)

Lemma fscanf_d_frame f w :
  ∃ r f' e, fscanf_d f w = Some ((r, f'), set_errno e w).
Proof.
  unfold fscanf_d. msimpl.
  destruct (fs w !! f_path f) as [[c|]|]; msimpl;
    try (eexists _, _, (errno w); by rewrite set_errno_same).
  destruct (scan_number _) as [[v rest]|]; msimpl;
    [|eexists _, _, (errno w); by rewrite set_errno_same].
  destruct (_ =? _); msimpl; [|by eexists _, _, _].
  eexists _, _, (errno w). by rewrite set_errno_same.
Qed.

Lemma fwrite_string_frame f data w :
  ∃ r m e,
    fwrite_string f data w
    = Some (r, Build_world m e (STATUS_CALLBACK w) (QUERY_CALLBACK w) (out w)).
Proof.
  unfold fwrite_string. msimpl.
  destruct (fault (sys_write (f_path f))); msimpl; [by eexists _, _, _|].
  destruct (fs w !! f_path f) as [[c|]|]; msimpl; by eexists _, _, _.
Qed.

Lemma fprintf_frame f fmt args w :
  ∃ f' m e,
    fprintf f fmt args w
    = Some (f', Build_world m e (STATUS_CALLBACK w) (QUERY_CALLBACK w) (out w)).
Proof.
  unfold fprintf.
  destruct (fwrite_string_frame f (sprintf fmt args) w) as (r & m & e & E).
  run E. msimpl. by eexists _, _, _.
Qed.

Lemma fopen_w_frame p w :
  ∃ r m e,
    fopen p "w" w
    = Some (r, Build_world m e (STATUS_CALLBACK w) (QUERY_CALLBACK w) (out w)).
Proof.
  unfold fopen. msimpl. destruct (fault (sys_fopen p)); [by eexists _, _, _|].
  change (String.eqb "w" "r+") with false.
  change (String.eqb "w" "w") with true. cbv iota.
  destruct (lookup_node (fs w) p) as [[c|]|],
           (lookup_node (fs w) (parent p)) as [[c'|]|];
    msimpl; by eexists _, _, _.
Qed.

Lemma remove_frame p w :
  ∃ r m e,
    remove p w
    = Some (r, Build_world m e (STATUS_CALLBACK w) (QUERY_CALLBACK w) (out w))
    ∧ (∀ q, q ≠ p → m !! q = fs w !! q)
    ∧ (r = false → p ≠ [] ∧ m !! p = None).
Proof.
  unfold remove. msimpl.
  assert (Hdel : p ≠ [] → ∃ r m e,
    Some (false, set_fs (delete p (fs w)) w)
    = Some (r, Build_world m e (STATUS_CALLBACK w) (QUERY_CALLBACK w) (out w))
    ∧ (∀ q, q ≠ p → m !! q = fs w !! q)
    ∧ (r = false → p ≠ [] ∧ m !! p = None)).
  { intros Hp. exists false, (delete p (fs w)), (errno w).
    split; [done|]. split.
    - intros q Hq. by apply lookup_delete_ne.
    - intros _. split; [done|]. apply lookup_delete_eq. }
  assert (Hfail : ∀ e, ∃ r m e',
    Some (true, set_errno e w)
    = Some (r, Build_world m e' (STATUS_CALLBACK w) (QUERY_CALLBACK w) (out w))
    ∧ (∀ q, q ≠ p → m !! q = fs w !! q)
    ∧ (r = false → p ≠ [] ∧ m !! p = None)).
  { intros e. by exists true, (fs w), e. }
  destruct (fault (sys_remove p)); [apply Hfail|].
  destruct p as [|c p]; [apply Hfail|].
  destruct (fs w !! (c :: p)) as [[x|]|]; msimpl.
  - by apply Hdel.
  - destruct (has_entries (fs w) (c :: p)); msimpl; [apply Hfail | by apply Hdel].
  - apply Hfail.
Qed.

Lemma puflib_delete_nv_store_frame module type w :
  ∃ r m e,
    puflib_delete_nv_store module type w
    = Some (r, Build_world m e (STATUS_CALLBACK w) (QUERY_CALLBACK w) (out w)).
Proof.
  unfold puflib_delete_nv_store.
  destruct (puflib_get_nv_store_path (name module) type) as [p|].
  2:{ exists true, (fs w), (errno w). by destruct w. }
  assert (∃ r m e,
    (if storage_type_is_dir type then puflib_delete_tree p else remove p) w
    = Some (r, Build_world m e (STATUS_CALLBACK w) (QUERY_CALLBACK w) (out w)))
    as (r & m & e & Hrun).
  { destruct (storage_type_is_dir type).
    - destruct (puflib_delete_tree_run p w) as (r & m & e & Hrun & _).
      by eexists _, _, _.
    - destruct (remove_frame p w) as (r & m & e & Hrun & _).
      by eexists _, _, _. }
  run Hrun. destruct r; msimpl; by eexists _, _, _.
Qed.

(** With a status handler installed [provision_continue] always returns. *)
Lemma provision_continue_returns f w h :
  STATUS_CALLBACK w = Some h →
  ∃ r m e o,
    provision_continue f w
    = Some (r, Build_world m e (Some h) (QUERY_CALLBACK w) o).
Proof.
  intros Hh. unfold provision_continue. report_step h.
  match goal with
  | |- context [(fscanf_d ?g ≫= _) ?ww] =>
      destruct (fscanf_d_frame g ww) as (r & f' & ? & E); run E; clear E
  end.
  msimpl. destruct (default 0 r =? 1).
  { report_step h. report_step h. unfold rewind. msimpl.
    match goal with
    | |- context [(fprintf ?a ?b ?c ≫= _) ?ww] =>
        destruct (fprintf_frame a b c ww) as (? & ? & ? & E); run E; clear E
    end.
    unfold fclose. msimpl. by eexists _, _, _, _. }
  destruct (default 0 r =? 2).
  2:{ unfold fclose. msimpl. report_step h. by eexists _, _, _, _. }
  unfold fclose. msimpl. report_step h. report_step h.
  match goal with
  | |- context [(puflib_delete_nv_store ?a ?b ≫= _) ?ww] =>
      destruct (puflib_delete_nv_store_frame a b ww) as (failed & ? & ? & E);
      run E; clear E
  end.
  msimpl. destruct failed.
  { msimpl. report_step h. by eexists _, _, _, _. }
  match goal with
  | |- context [(puflib_create_nv_store ?a ?b ≫= _) ?ww] =>
      destruct (puflib_create_nv_store_frame a b ww) as (final & ? & ? & E & _);
      run E; clear E
  end.
  msimpl. destruct final as [pf|].
  2:{ match goal with
      | |- context [(puflib_perror _ ≫= _) ?ww] =>
          destruct (puflib_perror_run MODULE_INFO ww h eq_refl) as (? & ? & E);
          run E; clear E
      end.
      msimpl. by eexists _, _, _, _. }
  match goal with
  | |- context [(fopen ?a "w" ≫= _) ?ww] =>
      destruct (fopen_w_frame a ww) as (g & ? & ? & E); run E; clear E
  end.
  msimpl. destruct g as [g|]; msimpl.
  2:{ match goal with
      | |- context [(puflib_perror _ ≫= _) ?ww] =>
          destruct (puflib_perror_run MODULE_INFO ww h eq_refl) as (? & ? & E);
          run E; clear E
      end.
      msimpl. by eexists _, _, _, _. }
  unfold fputs. msimpl.
  match goal with
  | |- context [(fwrite_string ?a ?b ≫= _) ?ww] =>
      destruct (fwrite_string_frame a b ww) as (written & ? & ? & E);
      run E; clear E
  end.
  msimpl. destruct written; msimpl; [by eexists _, _, _, _|].
  match goal with
  | |- context [(puflib_perror _ ≫= _) ?ww] =>
      destruct (puflib_perror_run MODULE_INFO ww h eq_refl) as (? & ? & E);
      run E; clear E
  end.
  msimpl. by eexists _, _, _, _.
Qed.

(** ** The claims *)

(** C1.  The resumption round trip.  Start with a status handler installed,
    no faults, and storage empty for the module: nothing at the temp-file or
    final-file path, no file in the way of either, the two paths not inside
    one another.  Then the first [provision] returns PROVISION_INCOMPLETE and
    leaves the temp store holding "1" (and the newline [fprintf] prints after
    it); the second returns PROVISION_INCOMPLETE and leaves it holding "2";
    the third returns PROVISION_COMPLETE, the temp store is gone and the final
    store holds "provisioned"; after which [puflib_module_status] has the
    PROVISIONED flag set. *)
Theorem provision_round_trip w0 h pt pf pd pdf pdd :
  STATUS_CALLBACK w0 = Some h →
  (∀ c, fault c = None) →
  puflib_get_nv_store_path (name MODULE_INFO) STORAGE_TEMP_FILE = Some pt →
  puflib_get_nv_store_path (name MODULE_INFO) STORAGE_FINAL_FILE = Some pf →
  puflib_get_nv_store_path (name MODULE_INFO) STORAGE_FINAL_DIR = Some pd →
  puflib_get_nv_store_path (name MODULE_INFO) STORAGE_DISABLED_FILE = Some pdf →
  puflib_get_nv_store_path (name MODULE_INFO) STORAGE_DISABLED_DIR = Some pdd →
  ¬ pt `prefix_of` pf → ¬ pf `prefix_of` pt →
  fs w0 !! pt = None → fs w0 !! pf = None →
  clear_way (fs w0) pt → clear_way (fs w0) pf →
  ∃ w1 w2 w3 w4 s,
    provision w0 = Some (PROVISION_INCOMPLETE, w1)
    ∧ fs w1 !! pt = Some (File ("1" +:+ nl))
    ∧ provision w1 = Some (PROVISION_INCOMPLETE, w2)
    ∧ fs w2 !! pt = Some (File ("2" +:+ nl))
    ∧ provision w2 = Some (PROVISION_COMPLETE, w3)
    ∧ fs w3 !! pt = None
    ∧ fs w3 !! pf = Some (File "provisioned")
    ∧ puflib_module_status MODULE_INFO w3 = Some (s, w4)
    ∧ Z.land s MODULE_PROVISIONED = MODULE_PROVISIONED.
Proof.
  intros Hh Hok Ht Hf Hd Hdf Hdd Htf Hft Hnot Hnof Hct Hcf.
  assert (Hpt : pt ≠ []) by (intros ->; apply Htf, prefix_nil).
  assert (Hpf : pf ≠ []) by (intros ->; apply Hft, prefix_nil).
  assert (Hne : pf ≠ pt) by (by intros ->).
  set (A := prefixes (parent pt)).
  (* first call *)
  destruct (provision_fresh w0 h pt Hh Hok Ht Hpt Hnot Hct) as (e1 & o1 & E1).
  fold A in E1.
  set (fs1 := <[pt := File ("1" +:+ nl)]> (<[pt := File ""]> (add_dirs A (fs w0))))
    in E1.
  set (w1 := Build_world fs1 e1 (Some h) (QUERY_CALLBACK w0) o1) in E1.
  assert (Hfs1 : fs1 !! pt = Some (File ("1" +:+ nl))) by apply lookup_insert_eq.
  assert (Hhoused1 : housed fs1 pt).
  { do 2 (apply housed_insert; [apply not_elem_of_prefixes_parent|]).
    by apply add_dirs_housed. }
  (* second call *)
  destruct (provision_resume_housed w1 h pt _ eq_refl Ht Hpt Hfs1 Hhoused1
              (Hok _)) as (e2 & o2 & E2).
  destruct (provision_continue_step1
              (Build_world (fs w1) e2 (Some h) (QUERY_CALLBACK w1) o2) h pt _
              eq_refl (Hok _) Hfs1 eq_refl) as (e3 & o3 & E3).
  rewrite <- E2 in E3. clear E2. cbn [fs QUERY_CALLBACK w1] in E3.
  rewrite second_step_written in E3.
  set (fs2 := <[pt := File ("2" +:+ nl)]> fs1) in E3.
  set (w2 := Build_world fs2 e3 (Some h) (QUERY_CALLBACK w0) o3) in E3.
  assert (Hfs2 : fs2 !! pt = Some (File ("2" +:+ nl))) by apply lookup_insert_eq.
  assert (Hhoused2 : housed fs2 pt).
  { by apply housed_insert; [apply not_elem_of_prefixes_parent|]. }
  (* third call *)
  assert (Hother : ∀ q, q ≠ pt → ¬ q `prefix_of` pt →
                        delete pt fs2 !! q = fs w0 !! q).
  { intros q Hq Hpre. rewrite lookup_delete_ne by done.
    unfold fs2, fs1. rewrite !lookup_insert_ne by done.
    rewrite lookup_add_dirs. destruct (fs w0 !! q); [done|].
    rewrite decide_False; [done|]. intros [Hin _].
    apply elem_of_prefixes in Hin as [_ Hin]. by apply Hpre, prefix_of_parent. }
  assert (Hfree3 : delete pt fs2 !! pf = None) by (by rewrite Hother).
  assert (Hclear3 : clear_way (delete pt fs2) pf).
  { intros q c Hq. destruct (decide (q = pt)) as [->|Hq'].
    - by rewrite lookup_delete_eq.
    - rewrite lookup_delete_ne by done. unfold fs2, fs1.
      rewrite !lookup_insert_ne by done. rewrite lookup_add_dirs.
      destruct (fs w0 !! q) as [x|] eqn:Ex.
      + rewrite <- Ex. by apply Hcf.
      + by destruct (decide _). }
  destruct (provision_resume_housed w2 h pt _ eq_refl Ht Hpt Hfs2 Hhoused2
              (Hok _)) as (e4 & o4 & E4).
  destruct (provision_continue_step2
              (Build_world (fs w2) e4 (Some h) (QUERY_CALLBACK w2) o4) h pt _ pf
              eq_refl Hok Ht Hf Hpt Hpf Hfs2 eq_refl Hfree3 Hclear3)
    as (e5 & o5 & E5).
  rewrite <- E4 in E5. clear E4. cbn [fs QUERY_CALLBACK w2] in E5.
  set (fs3 := <[pf := File "provisioned"]> _) in E5.
  set (w3 := Build_world fs3 e5 (Some h) (QUERY_CALLBACK w0) o5) in E5.
  assert (Hfinal : fs3 !! pf = Some (File "provisioned"))
    by apply lookup_insert_eq.
  assert (Hgone : fs3 !! pt = None).
  { unfold fs3. rewrite !lookup_insert_ne by done. rewrite lookup_add_dirs.
    rewrite lookup_delete_eq. rewrite decide_False; [done|]. intros [Hin _].
    apply elem_of_prefixes in Hin as [_ Hin]. by apply Htf, prefix_of_parent. }
  (* the status afterwards *)
  destruct (puflib_module_status_run MODULE_INFO w3 pf pd pdf pdd Hf Hd Hdf Hdd)
    as (e6 & E6).
  rewrite (is_store_file (fs w3) pf "provisioned" Hpf Hfinal) in E6.
  cbn [orb] in E6.
  eexists w1, w2, w3, _, _. repeat split; try done.
  cbn zeta. apply land_lor_absorb.
Qed.

(** C2.  When the temp store holds a step value that is neither 1 nor 2
    (whatever does not parse as a number leaves the step at 0, and a numeral
    out of the range of [long] is read as -1 or 0), [provision]
    returns PROVISION_ERROR, its last act being the report at level
    STATUS_WARN of "NV store corrupted" — which the handler receives as
    "warn (puflibtest): NV store corrupted" when formatting succeeds — and the
    temp store holds what it held before. *)
Theorem provision_corrupted_store w h p c :
  STATUS_CALLBACK w = Some h →
  puflib_get_nv_store_path (name MODULE_INFO) STORAGE_TEMP_FILE = Some p →
  lookup_node (fs w) p = Some (File c) →
  fault (sys_fopen p) = None →
  persisted_step c ≠ 1 → persisted_step c ≠ 2 →
  ∃ w1 w',
    provision w = Some (PROVISION_ERROR, w')
    ∧ puflib_report MODULE_INFO STATUS_WARN "NV store corrupted" w1
      = Some (tt, w')
    ∧ lookup_node (fs w') p = Some (File c)
    ∧ ((∀ n, fault (sys_malloc n) = None) →
       out w' = h "warn (puflibtest): NV store corrupted" (out w1)).
Proof.
  intros Hh Hpath Hthere Hop H1 H2.
  destruct (puflib_create_nv_store_frame MODULE_INFO STORAGE_TEMP_FILE w)
    as (r & m & e0 & Hcreate & Hmono & Hfail).
  rewrite (Hfail p _ Hpath eq_refl Hthere) in Hcreate.
  apply (lookup_node_mono _ m) in Hthere; [|done].
  destruct (provision_resumes w _ h p c Hh Hcreate Hpath Hthere Hop)
    as (e1 & o1 & ->).
  cbn [fs] in *.
  assert (Hp : p ≠ []) by (by intros ->).
  rewrite lookup_node_ne in Hthere by done.
  destruct (provision_continue_corrupted
              (Build_world m e1 (Some h) (QUERY_CALLBACK w) o1) h p c
              eq_refl Hthere H1 H2) as (e2 & o2 & ->).
  cbn [fs QUERY_CALLBACK].
  set (w1 := Build_world m e2 (Some h) (QUERY_CALLBACK w) o2).
  destruct (puflib_report_run MODULE_INFO STATUS_WARN "NV store corrupted"
              w1 h eq_refl) as (e3 & text & Hrep & Htext).
  exists w1. eexists. split; [by run Hrep|]. split; [exact Hrep|].
  cbn [fs out]. split; [by rewrite lookup_node_ne|].
  intros Hmem. rewrite Hmem in Htext. by subst text.
Qed.

(** C3.  For every module and every directory kind of store, when the target
    is already there as a directory [puflib_create_nv_store] returns no path
    with [errno] set to EEXIST, and the file system is exactly as before. *)
Theorem create_existing_directory_store module type p w :
  storage_type_is_dir type = true →
  puflib_get_nv_store_path (name module) type = Some p →
  lookup_node (fs w) p = Some Dir →
  ∃ w', puflib_create_nv_store module type w = Some (None, w')
    ∧ errno w' = EEXIST
    ∧ fs w' = fs w.
Proof.
  intros Hdir Hpath Hthere. unfold puflib_create_nv_store.
  rewrite Hpath, Hdir.
  destruct (puflib_check_access_run p true w) as [e He].
  run (fmap_run negb _ _ _ _ He).
  rewrite (is_store_dir _ _ Hthere). cbn.
  eexists. split; [reflexivity|]. by cbn.
Qed.

(** C4, as the code has it.  When creating the temp store fails and there is
    no temp store to re-attach to, [provision] reports the current OS error
    with [puflib_perror] (it is EACCES, set by [puflib_get_nv_store], whenever
    the path of the store can be derived) and returns PROVISION_ERROR,
    leaving the files as the failed creation left them.  When the creation
    fails and the temp store is there, [provision] goes on as a resumption,
    whatever made the creation fail: having told the handler that it
    continues, it returns what [provision_continue] returns on the files as
    the failed creation left them; with the store at step 1 that is
    PROVISION_INCOMPLETE, the step advanced to 2. *)
Theorem provision_creation_failure w w1 h :
  STATUS_CALLBACK w = Some h →
  puflib_create_nv_store MODULE_INFO STORAGE_TEMP_FILE w = Some (None, w1) →
  (store_present w1 MODULE_INFO STORAGE_TEMP_FILE = false →
   ∃ w2 w',
     provision w = Some (PROVISION_ERROR, w')
     ∧ puflib_perror MODULE_INFO w2 = Some (tt, w')
     ∧ (is_Some (puflib_get_nv_store_path (name MODULE_INFO) STORAGE_TEMP_FILE) →
        errno w2 = EACCES)
     ∧ fs w' = fs w1)
  ∧ (∀ p c,
       puflib_get_nv_store_path (name MODULE_INFO) STORAGE_TEMP_FILE = Some p →
       lookup_node (fs w1) p = Some (File c) →
       fault (sys_fopen p) = None →
       ∃ w2 r w',
         provision w = Some (r, w')
         ∧ provision_continue (Build_FILE p 0) w2 = Some (r, w')
         ∧ fs w2 = fs w1
         ∧ STATUS_CALLBACK w2 = Some h
         ∧ QUERY_CALLBACK w2 = QUERY_CALLBACK w
         ∧ (out w2
            = h (formatted_message MODULE_INFO STATUS_INFO
                   "could not create or NV store exists, continuing provision")
                (out w)
            ∨ out w2 = h fallback_message (out w))
         ∧ (persisted_step c = 1 → fault (sys_write p) = None →
            r = PROVISION_INCOMPLETE
            ∧ lookup_node (fs w') p
              = Some (File (write_at 0 ("2" +:+ nl) c)))).
Proof.
  intros Hh Hcreate. split.
  - intros Habsent. unfold provision. run Hcreate.
    destruct (puflib_create_nv_store_frame MODULE_INFO STORAGE_TEMP_FILE w)
      as (r & m & e0 & Hrun & _).
    rewrite Hrun in Hcreate. injection Hcreate as -> <-.
    report_step h.
    match goal with
    | |- context [(puflib_get_nv_store _ _ ≫= _) ?ww] =>
        destruct (puflib_get_nv_store_run MODULE_INFO STORAGE_TEMP_FILE ww)
          as (e1 & E1 & _ & Hacc);
        change (store_present ww MODULE_INFO STORAGE_TEMP_FILE)
          with (store_present
                  (Build_world m e0 (STATUS_CALLBACK w) (QUERY_CALLBACK w) (out w))
                  MODULE_INFO STORAGE_TEMP_FILE) in E1, Hacc;
        rewrite Habsent in E1; run E1; clear E1
    end.
    msimpl.
    match goal with
    | |- context [(puflib_perror _ ≫= _) ?ww] =>
        destruct (puflib_perror_run MODULE_INFO ww h eq_refl)
          as (e2 & text2 & E2);
        exists ww; eexists; split; [by run E2|]; split; [exact E2|]
    end.
    split; [|done]. intros Hsome. cbn [errno]. by apply Hacc.
  - intros p c Hpath Hthere Hop.
    destruct (provision_resumes_told w w1 h p c Hh Hcreate Hpath Hthere Hop)
      as (e & text & -> & Htext).
    set (w2 := Build_world (fs w1) e (Some h) (QUERY_CALLBACK w) (h text (out w))).
    destruct (provision_continue_returns (Build_FILE p 0) w2 h eq_refl)
      as (r & m' & e' & o' & Hrun).
    exists w2, r. eexists. split; [exact Hrun|]. split; [exact Hrun|].
    split; [done|]. split; [done|]. split; [done|].
    split; [destruct Htext as [-> | ->]; [by left | by right]|].
    intros Hstep Hwr.
    assert (Hp : p ≠ []) by (by intros ->).
    rewrite lookup_node_ne in Hthere by done.
    destruct (provision_continue_step1 w2 h p c eq_refl Hwr Hthere Hstep)
      as (e3 & o3 & Hadvance).
    rewrite Hadvance in Hrun. injection Hrun as <- <- _ _.
    split; [done|]. cbn [fs]. rewrite lookup_node_ne by done.
    apply lookup_insert_eq.
Qed.

(** C5.  Without a query handler [puflib_query] fails at once (it returns
    [true], the failure signal), hands the buffer back as it was and only
    clears [errno]; with a handler it returns the handler's result and the
    world changes by what the handler did, nothing more. *)
Theorem puflib_query_delegates module key prompt buffer buflen w :
  (QUERY_CALLBACK w = None →
     puflib_query module key prompt buffer buflen w
     = Some ((true, buffer), set_errno 0 w))
  ∧ (∀ handler, QUERY_CALLBACK w = Some handler →
       ∃ r buffer' c,
         handler module key prompt buffer buflen (out w) = (r, buffer', c)
         ∧ puflib_query module key prompt buffer buflen w
           = Some ((r, buffer'), set_out c w)).
Proof.
  split.
  - intros E. unfold puflib_query, mbind, M_bind; cbn. by rewrite E.
  - intros handler E. unfold puflib_query, mbind, M_bind; cbn. rewrite E.
    destruct (handler _ _ _ _ _ _) as [[r b] c]. by exists r, b, c.
Qed.

(** C6.  [puflib_report] cannot fail its caller: with a status handler
    installed it returns normally for every module, level and message, having
    passed the handler either the formatted message or, exactly when
    formatting fails, the fixed internal-error string; the file system and the
    two callback slots are as before. *)
Theorem puflib_report_never_fails module level message w h :
  STATUS_CALLBACK w = Some h →
  ∃ w', puflib_report module level message w = Some (tt, w')
    ∧ (out w' = h (formatted_message module level message) (out w)
       ∨ out w' = h "error (puflib): internal error formatting message" (out w))
    ∧ (is_Some (fault (sys_malloc (S (String.length
                  (formatted_message module level message))))) →
       out w' = h "error (puflib): internal error formatting message" (out w))
    ∧ fs w' = fs w
    ∧ STATUS_CALLBACK w' = STATUS_CALLBACK w
    ∧ QUERY_CALLBACK w' = QUERY_CALLBACK w.
Proof.
  intros E. destruct (puflib_report_run module level message w h E)
    as (e & text & Hrun & Htext).
  eexists. split; [exact Hrun|]. cbn. rewrite E.
  destruct (fault _) as [e'|]; subst text.
  - repeat split; auto.
  - repeat split; auto. by intros [? ?].
Qed.

(** C7.  When formatting succeeds, the message [puflib_report] hands to the
    status handler is "<level> (<module name>): <message>", where <level> is
    "info" for STATUS_INFO, "warn" for STATUS_WARN, and "error" for
    STATUS_ERROR and for every other level value. *)
Theorem puflib_report_rendering module level message w h :
  STATUS_CALLBACK w = Some h →
  (∀ n, fault (sys_malloc n) = None) →
  ∃ w' label,
    puflib_report module level message w = Some (tt, w')
    ∧ out w' = h (label +:+ " (" +:+ name module +:+ "): " +:+ message) (out w)
    ∧ (level = STATUS_INFO → label = "info")
    ∧ (level = STATUS_WARN → label = "warn")
    ∧ (level = STATUS_ERROR → label = "error")
    ∧ (level ≠ STATUS_INFO → level ≠ STATUS_WARN → label = "error").
Proof.
  intros E Hmem. destruct (puflib_report_run module level message w h E)
    as (e & text & Hrun & Htext).
  rewrite Hmem in Htext. subst text.
  exists (Build_world (fs w) e (Some h) (QUERY_CALLBACK w)
            (h (formatted_message module level message) (out w))),
         (level_as_string level).
  split; [exact Hrun|]. split.
  { unfold formatted_message. by rewrite sprintf_report_format. }
  unfold level_as_string, STATUS_INFO, STATUS_WARN, STATUS_ERROR.
  repeat split; intros; subst; try done.
  destruct (Z.eqb_spec level 0); [done|].
  by destruct (Z.eqb_spec level 1).
Qed.

(** C8.  [puflib_module_status] looks at nothing but the four probes of the
    final and disabled stores.  If one of the four paths cannot be derived
    the result is MODULE_STATUS_ERROR.  Otherwise the result is the flags
    PROVISIONED|DISABLED when a disabled store of either shape is there,
    or-ed with PROVISIONED when a final store of either shape is there: with
    a disabled store it is PROVISIONED and DISABLED together, with no store at
    all it is no flag.  The file system is not changed. *)
Theorem puflib_module_status_probes module w :
  ∃ s w',
    puflib_module_status module w = Some (s, w')
    ∧ fs w' = fs w
    ∧ (puflib_get_nv_store_path (name module) STORAGE_FINAL_FILE = None
       ∨ puflib_get_nv_store_path (name module) STORAGE_FINAL_DIR = None
       ∨ puflib_get_nv_store_path (name module) STORAGE_DISABLED_FILE = None
       ∨ puflib_get_nv_store_path (name module) STORAGE_DISABLED_DIR = None →
       s = MODULE_STATUS_ERROR)
    ∧ (∀ path_f path_d path_dis_f path_dis_d,
         puflib_get_nv_store_path (name module) STORAGE_FINAL_FILE = Some path_f →
         puflib_get_nv_store_path (name module) STORAGE_FINAL_DIR = Some path_d →
         puflib_get_nv_store_path (name module) STORAGE_DISABLED_FILE
           = Some path_dis_f →
         puflib_get_nv_store_path (name module) STORAGE_DISABLED_DIR
           = Some path_dis_d →
         let final :=
           is_store (fs w) path_f false || is_store (fs w) path_d true in
         let disabled :=
           is_store (fs w) path_dis_f false || is_store (fs w) path_dis_d true in
         s = Z.lor (if disabled then Z.lor MODULE_PROVISIONED MODULE_DISABLED else 0)
                   (if final then MODULE_PROVISIONED else 0)
         ∧ (disabled = true → s = Z.lor MODULE_PROVISIONED MODULE_DISABLED)
         ∧ (final = false → disabled = false → s = 0)).
Proof.
  destruct (puflib_get_nv_store_path (name module) STORAGE_FINAL_FILE)
    as [pf|] eqn:Hf;
    [|unfold puflib_module_status; rewrite Hf; eexists _, _;
      split; [reflexivity|]; cbn; repeat split; done].
  destruct (puflib_get_nv_store_path (name module) STORAGE_FINAL_DIR)
    as [pd|] eqn:Hd;
    [|unfold puflib_module_status; rewrite Hf, Hd; eexists _, _;
      split; [reflexivity|]; cbn; repeat split; done].
  destruct (puflib_get_nv_store_path (name module) STORAGE_DISABLED_FILE)
    as [pdf|] eqn:Hdf;
    [|unfold puflib_module_status; rewrite Hf, Hd, Hdf; eexists _, _;
      split; [reflexivity|]; cbn; repeat split; done].
  destruct (puflib_get_nv_store_path (name module) STORAGE_DISABLED_DIR)
    as [pdd|] eqn:Hdd;
    [|unfold puflib_module_status; rewrite Hf, Hd, Hdf, Hdd; eexists _, _;
      split; [reflexivity|]; cbn; repeat split; done].
  destruct (puflib_module_status_run module w pf pd pdf pdd Hf Hd Hdf Hdd)
    as [e Hrun].
  eexists _, _. split; [exact Hrun|]. split; [done|].
  split; [by intros [?|[?|[?|?]]]|].
  intros ? ? ? ? [= <-] [= <-] [= <-] [= <-]. cbn zeta.
  destruct (is_store (fs w) pdf false || is_store (fs w) pdd true);
    destruct (is_store (fs w) pf false || is_store (fs w) pd true);
    repeat split; intros; rewrite ?Z.lor_0_l, ?Z.lor_0_r; try done.
  by rewrite (Z.lor_comm MODULE_PROVISIONED), <- Z.lor_assoc, Z.lor_diag.
Qed.

(** C9.  For every module and kind of store, when [puflib_create_nv_store]
    succeeds with a path, [puflib_get_nv_store] for the same module and kind,
    called next, succeeds with the same path (and changes no file). *)
Theorem create_then_get module type p w w1 :
  puflib_create_nv_store module type w = Some (Some p, w1) →
  ∃ w2, puflib_get_nv_store module type w1 = Some (Some p, w2)
    ∧ fs w2 = fs w1.
Proof.
  unfold puflib_create_nv_store, puflib_get_nv_store.
  destruct (puflib_get_nv_store_path (name module) type) as [p0|]; [|done].
  destruct (storage_type_is_dir type) eqn:Hdir; cbn [negb].
  - destruct (puflib_check_access_run p0 true w) as [e He].
    run (fmap_run negb _ _ _ _ He).
    destruct (is_store (fs w) p0 true); [done|]. cbn [negb].
    unfold puflib_create_directory_tree.
    destruct (mkdirs_frame (prefixes p0) (set_errno e w))
      as (r & m & e' & Hmk & _ & _ & _ & Hok).
    run Hmk. destruct r; [done|]. intros [= <- <-].
    destruct (puflib_check_access_run p0 true
                (Build_world m e' (STATUS_CALLBACK (set_errno e w))
                   (QUERY_CALLBACK (set_errno e w)) (out (set_errno e w))))
      as [e2 He2].
    run He2. cbn [fs]. rewrite is_store_dir; [by eexists|].
    destruct (decide (p0 = [])) as [->|Hne]; [done|].
    by apply Hok, self_elem_of_prefixes.
  - unfold mbind at 1, M_bind at 1, mret at 1, M_ret at 1.
    unfold puflib_create_directory_tree.
    destruct (mkdirs_frame (prefixes (parent p0)) w)
      as (r & m & e' & Hmk & _ & _ & _ & Hok).
    run Hmk. destruct r; [done|].
    unfold mbind at 1, M_bind at 1.
    destruct (puflib_create_and_open p0 "r+" _) as [[[f|] w']|] eqn:Hopen;
      [|done..].
    cbn. intros [= <- <-].
    apply puflib_create_and_open_Some in Hopen as [Hne [c Hc]].
    destruct (puflib_check_access_run p0 false w') as [e2 He2].
    run He2. rewrite (is_store_file _ _ c); by eauto.
Qed.

(** C10.  [puflib_deprovision] tries to remove the final file store when it
    is there and then, unless that failed, the final directory store when it
    is there; these are the only removals, run one after the other on the
    world as it is, and the result is [true] exactly when one of them failed.
    On success neither final store is left.  On failure [errno] is what the
    failed removal set (it is saved across the calls of [free]); when
    [remove] failed on the final file nothing was removed, so that a final
    directory is still there, and when [puflib_delete_tree] failed the final
    file is gone. *)
Theorem puflib_deprovision_outcome module w :
  ∃ e r1 w1 r2 w2 w',
    (if store_present w module STORAGE_FINAL_FILE
     then ∃ p,
            puflib_get_nv_store_path (name module) STORAGE_FINAL_FILE = Some p
            ∧ remove p (set_errno e w) = Some (r1, w1)
     else r1 = false ∧ w1 = set_errno e w)
    ∧ (if negb r1 && store_present w module STORAGE_FINAL_DIR
       then ∃ p,
              puflib_get_nv_store_path (name module) STORAGE_FINAL_DIR = Some p
              ∧ puflib_delete_tree p w1 = Some (r2, w2)
       else r2 = false ∧ w2 = w1)
    ∧ puflib_deprovision module w = Some (r1 || r2, w')
    ∧ fs w' = fs w2
    ∧ (r1 || r2 = true → errno w' = errno w2)
    ∧ (r1 || r2 = false →
       store_present w' module STORAGE_FINAL_FILE = false
       ∧ store_present w' module STORAGE_FINAL_DIR = false)
    ∧ (r1 = true → fs w' = fs w)
    ∧ (r1 = false → store_present w' module STORAGE_FINAL_FILE = false).
Proof.
  unfold puflib_deprovision.
  destruct (puflib_get_nv_store_run module STORAGE_FINAL_FILE w)
    as (e1 & E1 & _ & _).
  run E1.
  destruct (puflib_get_nv_store_run module STORAGE_FINAL_DIR (set_errno e1 w))
    as (e2 & E2 & _ & _).
  run E2. clear E1 E2.
  change (store_present (set_errno e1 w) module STORAGE_FINAL_DIR)
    with (store_present w module STORAGE_FINAL_DIR).
  change (set_errno e2 (set_errno e1 w)) with (set_errno e2 w).
  exists e2. set (w0 := set_errno e2 w).
  (* the final file *)
  assert (∃ r1 w1,
    match (if store_present w module STORAGE_FINAL_FILE
           then puflib_get_nv_store_path (name module) STORAGE_FINAL_FILE
           else None) with
    | Some p => remove p
    | None => mret false
    end w0 = Some (r1, w1)
    ∧ (if store_present w module STORAGE_FINAL_FILE
       then ∃ p,
              puflib_get_nv_store_path (name module) STORAGE_FINAL_FILE = Some p
              ∧ remove p w0 = Some (r1, w1)
       else r1 = false ∧ w1 = w0)
    ∧ (r1 = true → fs w1 = fs w)
    ∧ (r1 = false →
       (∀ q x, fs w1 !! q = Some x → fs w !! q = Some x)
       ∧ store_present w1 module STORAGE_FINAL_FILE = false))
    as (r1 & w1 & Hrm & Hfirst & Hfail & Hgone).
  { destruct (store_present w module STORAGE_FINAL_FILE) eqn:Hpres.
    - unfold store_present in Hpres |- *.
      destruct (puflib_get_nv_store_path (name module) STORAGE_FINAL_FILE)
        as [p|]; [|done].
      apply is_store_file_inv in Hpres as [Hp [c Hc]].
      pose proof (remove_file_run p c w0 Hp Hc) as Hrun.
      destruct (fault (sys_remove p)) as [e|].
      + exists true, (set_errno e w0). split; [done|].
        split; [by exists p|]. by split.
      + exists false, (set_fs (delete p (fs w0)) w0). split; [done|].
        split; [by exists p|]. split; [done|]. intros _. cbn [fs set_fs]. split.
        * intros q x Hq. apply lookup_delete_Some in Hq as [_ Hq]. done.
        * apply is_store_None; [done|]. apply lookup_delete_eq.
    - exists false, w0. split; [done|]. split; [done|]. split; [done|].
      intros _. split; [done|]. exact Hpres. }
  exists r1, w1. run Hrm. destruct r1.
  { msimpl.
    destruct (free_run (if store_present w module STORAGE_FINAL_FILE
                        then puflib_get_nv_store_path (name module)
                               STORAGE_FINAL_FILE else None) w1) as [e3 E3].
    run E3.
    destruct (free_run (if store_present w module STORAGE_FINAL_DIR
                        then puflib_get_nv_store_path (name module)
                               STORAGE_FINAL_DIR else None) (set_errno e3 w1))
      as [e4 E4].
    run E4. msimpl.
    exists false, w1. eexists. split; [exact Hfirst|].
    cbn [negb andb orb]. split; [done|]. split; [reflexivity|].
    cbn [fs errno set_errno].
    split; [done|]. split; [done|]. split; [done|]. split; [|done].
    intros _. by apply Hfail. }
  destruct (Hgone eq_refl) as [Hsub Habsent]. clear Hfail Hgone.
  cbn [negb andb orb].
  (* the final directory *)
  assert (∃ r2 m e,
    match (if store_present w module STORAGE_FINAL_DIR
           then puflib_get_nv_store_path (name module) STORAGE_FINAL_DIR
           else None) with
    | Some p => puflib_delete_tree p
    | None => mret false
    end w1
    = Some (r2, Build_world m e (STATUS_CALLBACK w1) (QUERY_CALLBACK w1) (out w1))
    ∧ (if store_present w module STORAGE_FINAL_DIR
       then ∃ p,
              puflib_get_nv_store_path (name module) STORAGE_FINAL_DIR = Some p
              ∧ puflib_delete_tree p w1
                = Some (r2, Build_world m e (STATUS_CALLBACK w1)
                              (QUERY_CALLBACK w1) (out w1))
       else r2 = false
            ∧ Build_world m e (STATUS_CALLBACK w1) (QUERY_CALLBACK w1) (out w1)
              = w1)
    ∧ (∀ q x, m !! q = Some x → fs w1 !! q = Some x)
    ∧ (r2 = false →
       ∀ p, puflib_get_nv_store_path (name module) STORAGE_FINAL_DIR = Some p →
            is_store m p true = false))
    as (r2 & m & e & Hdel & Hsecond & Hsub' & Hgone).
  { destruct (store_present w module STORAGE_FINAL_DIR) eqn:Hpres.
    - unfold store_present in Hpres.
      destruct (puflib_get_nv_store_path (name module) STORAGE_FINAL_DIR)
        as [p|]; [|done].
      destruct (puflib_delete_tree_run p w1) as (r & m & e & Hrun & Hsub' & Hok).
      exists r, m, e. split; [done|]. split; [by exists p|]. split; [done|].
      intros Hr p' [= <-]. destruct (Hok Hr). by apply is_store_None.
    - exists false, (fs w1), (errno w1). split; [by destruct w1|].
      split; [by destruct w1|].
      split; [done|]. intros _ p Hp.
      unfold store_present in Hpres. rewrite Hp in Hpres.
      by apply (is_store_shrink (fs w)). }
  run Hdel.
  set (w2 := Build_world m e (STATUS_CALLBACK w1) (QUERY_CALLBACK w1) (out w1))
    in *.
  exists r2, w2.
  assert (Hfile : ∀ e', store_present (set_errno e' w2) module STORAGE_FINAL_FILE
                        = false).
  { intros e'. unfold store_present in Habsent |- *.
    destruct (puflib_get_nv_store_path (name module) STORAGE_FINAL_FILE);
      [|done].
    by apply (is_store_shrink (fs w1)). }
  destruct r2.
  - msimpl.
    destruct (free_run (if store_present w module STORAGE_FINAL_FILE
                        then puflib_get_nv_store_path (name module)
                               STORAGE_FINAL_FILE else None) w2) as [e3 E3].
    run E3.
    destruct (free_run (if store_present w module STORAGE_FINAL_DIR
                        then puflib_get_nv_store_path (name module)
                               STORAGE_FINAL_DIR else None) (set_errno e3 w2))
      as [e4 E4].
    run E4. msimpl.
    eexists. split; [done|]. split; [exact Hsecond|]. split; [reflexivity|].
    cbn [fs errno set_errno].
    split; [done|]. split; [done|]. split; [done|]. split; [done|].
    intros _. apply (Hfile e).
  - destruct (free_run (if store_present w module STORAGE_FINAL_FILE
                        then puflib_get_nv_store_path (name module)
                               STORAGE_FINAL_FILE else None) w2) as [e3 E3].
    run E3.
    destruct (free_run (if store_present w module STORAGE_FINAL_DIR
                        then puflib_get_nv_store_path (name module)
                               STORAGE_FINAL_DIR else None) (set_errno e3 w2))
      as [e4 E4].
    run E4. msimpl.
    eexists. split; [done|]. split; [exact Hsecond|]. split; [reflexivity|].
    cbn [fs errno set_errno].
    split; [done|]. split; [done|]. split; [|split; [done|]].
    + intros _. split; [apply (Hfile e4)|].
      unfold store_present.
      destruct (puflib_get_nv_store_path (name module) STORAGE_FINAL_DIR) as [p|];
        [|done].
      by apply Hgone.
    + intros _. apply (Hfile e4).
Qed.

(** ** Further properties of the library *)

Lemma bind_crash {A B} (m : M A) (k : A → M B) w :
  m w = None → (m ≫= k) w = None.
Proof. intros E. unfold mbind, M_bind. by rewrite E. Qed.

Lemma level_as_string_error : level_as_string STATUS_ERROR = "error".
Proof. reflexivity. Qed.

Lemma fopen_existing_run p w :
  ∃ r e, fopen p "r+" w = Some (r, set_errno e w).
Proof.
  unfold fopen. msimpl. destruct (fault (sys_fopen p)); [by eexists _, _|].
  change (String.eqb "r+" "r+") with true. cbv iota.
  destruct (lookup_node (fs w) p) as [[c|]|]; msimpl; try by eexists _, _.
  exists (Some (Build_FILE p 0)), (errno w). by rewrite set_errno_same.
Qed.

(** X1.  With unique names in the table, looking up the name of a registered
    module gives back exactly that module. *)
Theorem puflib_get_module_registered (table : list module_info) m :
  NoDup (name <$> table) → m ∈ table →
  puflib_get_module table (name m) = Some m.
Proof.
  induction table as [|m0 rest IH]; intros Hnd Hin.
  - by apply elem_of_nil in Hin.
  - rewrite fmap_cons in Hnd. apply NoDup_cons in Hnd as [Hfresh Hnd].
    cbn [puflib_get_module]. destruct (String.eqb_spec (name m0) (name m)) as [E|E].
    + apply elem_of_cons in Hin as [->|Hin]; [done|].
      exfalso. apply Hfresh. rewrite E. by apply list_elem_of_fmap_2.
    + apply elem_of_cons in Hin as [->|Hin]; [done|]. by apply IH.
Qed.

(** X2.  What [puflib_get_module] returns is the first entry of the table
    whose name is exactly the one asked for; it returns nothing exactly when
    no entry has that name. *)
Theorem puflib_get_module_first_match (table : list module_info) n :
  (∀ m, puflib_get_module table n = Some m →
        name m = n
        ∧ ∃ before after,
            table = before ++ m :: after
            ∧ ∀ m', m' ∈ before → name m' ≠ n)
  ∧ (puflib_get_module table n = None ↔ ∀ m, m ∈ table → name m ≠ n).
Proof.
  induction table as [|m0 rest [IHsome IHnone]]; cbn [puflib_get_module].
  - split; [done|]. split; [|done]. intros _ m Hm. by apply elem_of_nil in Hm.
  - destruct (String.eqb_spec (name m0) n) as [E|E].
    + split.
      * intros m [= <-]. split; [done|]. exists [], rest. split; [done|].
        intros m' Hm'. by apply elem_of_nil in Hm'.
      * split; [done|]. intros Hall. exfalso. apply (Hall m0); [|done].
        apply elem_of_cons; tauto.
    + split.
      * intros m Hm. destruct (IHsome m Hm) as (Hn & before & after & -> & Hb).
        split; [done|]. exists (m0 :: before), after. split; [done|].
        intros m' [->|Hm']%elem_of_cons; [done | by apply Hb].
      * rewrite IHnone. split.
        -- intros Hall m [->|Hm]%elem_of_cons; [done | by apply Hall].
        -- intros Hall m Hm. apply Hall, elem_of_cons. tauto.
Qed.

(** X3.  Installing a status handler takes effect at once: the next report
    goes to the new handler and to it alone, whatever was installed before
    (nothing included).  Removing the query handler makes the next query
    fail without touching the buffer. *)
Theorem handler_replacement module level message key prompt buffer buflen w h :
  (∃ w',
     (puflib_set_status_handler (Some h) ;; puflib_report module level message) w
     = Some (tt, w')
     ∧ (out w' = h (formatted_message module level message) (out w)
        ∨ out w' = h fallback_message (out w))
     ∧ STATUS_CALLBACK w' = Some h
     ∧ fs w' = fs w)
  ∧ (∃ w',
       (puflib_set_query_handler None ;;
        puflib_query module key prompt buffer buflen) w
       = Some ((true, buffer), w')
       ∧ out w' = out w ∧ fs w' = fs w).
Proof.
  split.
  - unfold puflib_set_status_handler. msimpl.
    destruct (puflib_report_run module level message
                (set_STATUS_CALLBACK (Some h) w) h eq_refl)
      as (e & text & Hrun & Htext).
    eexists. split; [exact Hrun|].
    cbn [out fs STATUS_CALLBACK set_STATUS_CALLBACK]. split; [|done].
    subst text. destruct (fault _); [by right | by left].
  - unfold puflib_set_query_handler, puflib_query. msimpl.
    eexists. split; [reflexivity|]. done.
Qed.

(** X4.  With a status handler installed and formatting succeeding,
    [puflib_perror] hands the handler "error (<module name>): " followed by
    the description of the value [errno] has at the call. *)
Theorem puflib_perror_reports_errno module w h :
  STATUS_CALLBACK w = Some h →
  (∀ n, fault (sys_malloc n) = None) →
  ∃ w',
    puflib_perror module w = Some (tt, w')
    ∧ out w' = h ("error (" +:+ name module +:+ "): " +:+ strerror (errno w)) (out w)
    ∧ fs w' = fs w.
Proof.
  intros Hh Hmem. unfold puflib_perror. msimpl.
  destruct (puflib_report_run module STATUS_ERROR (strerror (errno w)) w h Hh)
    as (e & text & Hrun & Htext).
  rewrite Hmem in Htext. subst text.
  eexists. split; [exact Hrun|]. split; [|done]. cbn [out].
  unfold formatted_message.
  by rewrite sprintf_report_format, level_as_string_error.
Qed.


(** X6.  Without a status handler every reporting function is a call through
    a null pointer. *)
Theorem reporting_needs_status_handler module level message fmt ap w :
  STATUS_CALLBACK w = None →
  puflib_report module level message w = None
  ∧ puflib_report_fmt module level fmt ap w = None
  ∧ puflib_perror module w = None.
Proof.
  intros E. repeat split.
  - by apply puflib_report_no_handler.
  - unfold puflib_report_fmt, puflib_asprintf.
    destruct (fault _); msimpl.
    + unfold call_STATUS_CALLBACK. msimpl. by rewrite E.
    + by rewrite bind_crash by (by apply puflib_report_no_handler).
  - unfold puflib_perror. msimpl. by apply puflib_report_no_handler.
Qed.

(** X7.  [provision] cannot run without a status handler: whatever the state
    of the storage, it ends in a call through the null [STATUS_CALLBACK]. *)
Theorem provision_needs_status_handler w :
  STATUS_CALLBACK w = None → provision w = None.
Proof.
  intros E. unfold provision.
  destruct (puflib_create_nv_store_frame MODULE_INFO STORAGE_TEMP_FILE w)
    as (r & m & e & Hrun & _).
  run Hrun. rewrite E. destruct r as [p|].
  - match goal with
    | |- context [(fopen p "r+" ≫= _) ?ww] =>
        destruct (fopen_existing_run p ww) as (f & e1 & Hopen); run Hopen
    end.
    destruct f as [f|]; apply bind_crash.
    + by apply puflib_report_no_handler.
    + unfold puflib_perror. msimpl. by apply puflib_report_no_handler.
  - apply bind_crash. by apply puflib_report_no_handler.
Qed.

(** X8.  [puflib_get_nv_store] returns the derived path exactly when an entry
    of the expected shape (file or directory) is there.  Otherwise it returns
    nothing, and whenever the path could be derived [errno] is EACCES,
    whatever the probe found.  It never changes the file system, the handlers
    or the console. *)
Theorem puflib_get_nv_store_outcome module type w :
  ∃ r w',
    puflib_get_nv_store module type w = Some (r, w')
    ∧ (∀ p, r = Some p ↔
            puflib_get_nv_store_path (name module) type = Some p
            ∧ is_store (fs w) p (storage_type_is_dir type) = true)
    ∧ (r = None →
       is_Some (puflib_get_nv_store_path (name module) type) →
       errno w' = EACCES)
    ∧ fs w' = fs w
    ∧ STATUS_CALLBACK w' = STATUS_CALLBACK w
    ∧ QUERY_CALLBACK w' = QUERY_CALLBACK w
    ∧ out w' = out w.
Proof.
  destruct (puflib_get_nv_store_run module type w) as (e & Hrun & _ & Hacc).
  eexists _, _. split; [exact Hrun|]. unfold store_present in *.
  destruct (puflib_get_nv_store_path (name module) type) as [p0|].
  - destruct (is_store (fs w) p0 (storage_type_is_dir type)) eqn:Hs.
    + split; [|done]. intros p. split.
      * by intros [= <-].
      * by intros [[= <-] _].
    + split; [|split; [|done]].
      * intros p. split; [done|]. intros [[= <-] Hp]. congruence.
      * intros _ Hsome. cbn. by apply Hacc.
  - split; [|done]. intros p. split; [done|]. by intros [? _].
Qed.

(** *** Removing stores *)

Lemma puflib_delete_tree_frame p w :
  ∃ r m e,
    puflib_delete_tree p w
    = Some (r, Build_world m e (STATUS_CALLBACK w) (QUERY_CALLBACK w) (out w))
    ∧ (∀ q, ¬ p `prefix_of` q → m !! q = fs w !! q)
    ∧ (r = false → p ≠ [] ∧ m !! p = None).
Proof.
  unfold puflib_delete_tree. msimpl.
  destruct p as [|c p].
  { exists true, (fs w), EBUSY. by repeat split. }
  destruct (fs w !! (c :: p)) as [x|] eqn:E.
  2:{ exists true, (fs w), ENOENT. by repeat split. }
  destruct (blocked (fs w) (c :: p)) as [|[q e] bs].
  - msimpl. eexists false, _, _. split; [reflexivity|]. split.
    + intros q Hq. destruct (fs w !! q) as [y|] eqn:Eq.
      * apply map_lookup_filter_Some. by split.
      * apply map_lookup_filter_None. by left.
    + intros _. split; [done|]. apply map_lookup_filter_None. right.
      intros y _ Hn. by apply Hn.
  - msimpl. eexists true, _, _. split; [reflexivity|]. split; [|done].
    intros q' Hq. destruct (fs w !! q') as [y|] eqn:Eq.
    + apply map_lookup_filter_Some. split; [done|]. by left.
    + apply map_lookup_filter_None. by left.
Qed.


Lemma puflib_create_nv_store_Some module type p w w1 :
  puflib_create_nv_store module type w = Some (Some p, w1) →
  puflib_get_nv_store_path (name module) type = Some p
  ∧ is_store (fs w1) p (storage_type_is_dir type) = true.
Proof.
  unfold puflib_create_nv_store.
  destruct (puflib_get_nv_store_path (name module) type) as [p0|]; [|done].
  destruct (storage_type_is_dir type) eqn:Hdir; cbn [negb].
  - destruct (puflib_check_access_run p0 true w) as [e He].
    run (fmap_run negb _ _ _ _ He).
    destruct (is_store (fs w) p0 true); [done|]. cbn [negb].
    unfold puflib_create_directory_tree.
    destruct (mkdirs_frame (prefixes p0) (set_errno e w))
      as (r & m & e' & Hmk & _ & _ & _ & Hok).
    run Hmk. destruct r; [done|]. intros [= <- <-]. split; [done|].
    cbn [fs]. apply is_store_dir.
    destruct (decide (p0 = [])) as [->|Hne]; [done|].
    by apply Hok, self_elem_of_prefixes.
  - msimpl. unfold puflib_create_directory_tree.
    destruct (mkdirs_frame (prefixes (parent p0)) w)
      as (r & m & e' & Hmk & _ & _ & _ & Hok).
    run Hmk. destruct r; [done|]. msimpl.
    unfold mbind at 1, M_bind at 1.
    destruct (puflib_create_and_open p0 "r+" _) as [[[f|] w']|] eqn:Hopen;
      [|done..].
    cbn. intros [= <- <-]. split; [done|].
    apply puflib_create_and_open_Some in Hopen as [Hne [c Hc]].
    by apply (is_store_file _ _ c).
Qed.

(** X10.  Creating a store is not idempotent: right after a successful
    [puflib_create_nv_store], the same call fails and keeps every entry as it
    is; for the directory kinds it fails with EEXIST and changes nothing at
    all. *)
Theorem create_twice module type p w w1 :
  puflib_create_nv_store module type w = Some (Some p, w1) →
  ∃ w2,
    puflib_create_nv_store module type w1 = Some (None, w2)
    ∧ (∀ q x, fs w1 !! q = Some x → fs w2 !! q = Some x)
    ∧ (storage_type_is_dir type = true → errno w2 = EEXIST ∧ fs w2 = fs w1).
Proof.
  intros Hfirst.
  apply puflib_create_nv_store_Some in Hfirst as [Hpath Hthere].
  destruct (storage_type_is_dir type) eqn:Hdir.
  - unfold puflib_create_nv_store. rewrite Hpath, Hdir.
    destruct (puflib_check_access_run p true w1) as [e He].
    run (fmap_run negb _ _ _ _ He). rewrite Hthere. cbn [negb]. msimpl.
    eexists. split; [reflexivity|]. by repeat split.
  - destruct (puflib_create_nv_store_frame module type w1)
      as (r & m & e & Hrun & Hmono & Hfail).
    unfold is_store in Hthere.
    destruct (lookup_node (fs w1) p) as [[c|]|] eqn:Hp; try done.
    rewrite (Hfail p _ Hpath Hdir Hp) in Hrun.
    eexists. split; [exact Hrun|]. by split.
Qed.

Lemma is_store_outside (m m' : gmap path node) p d :
  m' !! p = m !! p → is_store m' p d = is_store m p d.
Proof. intros E. unfold is_store. destruct p; [done|]. cbn. by rewrite E. Qed.

(** [puflib_deprovision] stays inside the two final stores. *)
Lemma puflib_deprovision_frame module w :
  ∃ r m e,
    puflib_deprovision module w
    = Some (r, Build_world m e (STATUS_CALLBACK w) (QUERY_CALLBACK w) (out w))
    ∧ ∀ q,
        puflib_get_nv_store_path (name module) STORAGE_FINAL_FILE ≠ Some q →
        (∀ pd, puflib_get_nv_store_path (name module) STORAGE_FINAL_DIR = Some pd →
               ¬ pd `prefix_of` q) →
        m !! q = fs w !! q.
Proof.
  unfold puflib_deprovision.
  destruct (puflib_get_nv_store_run module STORAGE_FINAL_FILE w)
    as (e1 & E1 & _ & _).
  run E1.
  destruct (puflib_get_nv_store_run module STORAGE_FINAL_DIR (set_errno e1 w))
    as (e2 & E2 & _ & _).
  run E2. clear E1 E2.
  change (store_present (set_errno e1 w) module STORAGE_FINAL_DIR)
    with (store_present w module STORAGE_FINAL_DIR).
  set (sf := if store_present w module STORAGE_FINAL_FILE
             then puflib_get_nv_store_path (name module) STORAGE_FINAL_FILE
             else None).
  set (sd := if store_present w module STORAGE_FINAL_DIR
             then puflib_get_nv_store_path (name module) STORAGE_FINAL_DIR
             else None).
  assert (Hsf : ∀ p, sf = Some p →
            puflib_get_nv_store_path (name module) STORAGE_FINAL_FILE = Some p).
  { unfold sf. by destruct (store_present w module STORAGE_FINAL_FILE). }
  assert (Hsd : ∀ p, sd = Some p →
            puflib_get_nv_store_path (name module) STORAGE_FINAL_DIR = Some p).
  { unfold sd. by destruct (store_present w module STORAGE_FINAL_DIR). }
  set (w2 := set_errno e2 (set_errno e1 w)).
  assert (∃ r m e,
    match sf with Some p => remove p | None => mret false end w2
    = Some (r, Build_world m e (STATUS_CALLBACK w) (QUERY_CALLBACK w) (out w))
    ∧ ∀ q, puflib_get_nv_store_path (name module) STORAGE_FINAL_FILE ≠ Some q →
           m !! q = fs w !! q)
    as (r1 & m1 & e3 & Hrm & Hout1).
  { destruct sf as [p|] eqn:Esf.
    - destruct (remove_frame p w2) as (r & m & e & Hrun & Hout & _).
      exists r, m, e. split; [exact Hrun|]. intros q Hq. apply Hout.
      intros ->. apply Hq. by apply Hsf.
    - exists false, (fs w), e2. by split. }
  run Hrm.
  set (w3 := Build_world m1 e3 (STATUS_CALLBACK w) (QUERY_CALLBACK w) (out w)).
  destruct r1.
  { msimpl.
    destruct (free_run sf w3) as [e4 E4]. run E4.
    destruct (free_run sd (set_errno e4 w3)) as [e5 E5]. run E5. msimpl.
    eexists true, _, _. split; [reflexivity|]. intros q Hq _. by apply Hout1. }
  assert (∃ r m e,
    match sd with Some p => puflib_delete_tree p | None => mret false end w3
    = Some (r, Build_world m e (STATUS_CALLBACK w) (QUERY_CALLBACK w) (out w))
    ∧ ∀ q, (∀ pd, puflib_get_nv_store_path (name module) STORAGE_FINAL_DIR
                  = Some pd → ¬ pd `prefix_of` q) →
           m !! q = m1 !! q)
    as (r2 & m2 & e4 & Hdel & Hout2).
  { destruct sd as [p|] eqn:Esd.
    - destruct (puflib_delete_tree_frame p w3) as (r & m & e & Hrun & Hout & _).
      exists r, m, e. split; [exact Hrun|]. intros q Hq. apply Hout.
      by apply Hq, Hsd.
    - exists false, m1, e3. by split. }
  run Hdel.
  set (w4 := Build_world m2 e4 (STATUS_CALLBACK w) (QUERY_CALLBACK w) (out w)).
  destruct r2; msimpl.
  all: destruct (free_run sf w4) as [e5 E5]; run E5.
  all: destruct (free_run sd (set_errno e5 w4)) as [e6 E6]; run E6; msimpl.
  all: eexists _, _, _; split; [reflexivity|].
  all: intros q Hq Hd; rewrite Hout2 by done; by apply Hout1.
Qed.

(** X11.  [puflib_deprovision] reports nothing and leaves the handlers
    alone, and it changes no entry of the file system other than the final
    file and what lies in the final directory tree. *)
Theorem puflib_deprovision_confined module w :
  ∃ r w',
    puflib_deprovision module w = Some (r, w')
    ∧ out w' = out w
    ∧ STATUS_CALLBACK w' = STATUS_CALLBACK w
    ∧ QUERY_CALLBACK w' = QUERY_CALLBACK w
    ∧ ∀ q,
        puflib_get_nv_store_path (name module) STORAGE_FINAL_FILE ≠ Some q →
        (∀ pd, puflib_get_nv_store_path (name module) STORAGE_FINAL_DIR = Some pd →
               ¬ pd `prefix_of` q) →
        fs w' !! q = fs w !! q.
Proof.
  destruct (puflib_deprovision_frame module w) as (r & m & e & Hrun & Hout).
  eexists _, _. split; [exact Hrun|]. by repeat split.
Qed.

(** X12.  Deprovisioning does not enable a disabled module.  When a disabled
    store of either shape is there, and the disabled stores do not lie at the
    final file's path or inside the final directory, [puflib_module_status]
    after [puflib_deprovision] is still PROVISIONED|DISABLED, whether the
    removal succeeded or not. *)
Theorem deprovision_keeps_disabled module w path_f path_d path_dis_f path_dis_d :
  puflib_get_nv_store_path (name module) STORAGE_FINAL_FILE = Some path_f →
  puflib_get_nv_store_path (name module) STORAGE_FINAL_DIR = Some path_d →
  puflib_get_nv_store_path (name module) STORAGE_DISABLED_FILE = Some path_dis_f →
  puflib_get_nv_store_path (name module) STORAGE_DISABLED_DIR = Some path_dis_d →
  path_dis_f ≠ path_f → path_dis_d ≠ path_f →
  ¬ path_d `prefix_of` path_dis_f → ¬ path_d `prefix_of` path_dis_d →
  is_store (fs w) path_dis_f false || is_store (fs w) path_dis_d true = true →
  ∃ r w1 w2,
    puflib_deprovision module w = Some (r, w1)
    ∧ puflib_module_status module w1
      = Some (Z.lor MODULE_PROVISIONED MODULE_DISABLED, w2).
Proof.
  intros Hf Hd Hdf Hdd Hne1 Hne2 Hpre1 Hpre2 Hdis.
  destruct (puflib_deprovision_frame module w) as (r & m & e & Hrun & Hout).
  set (w1 := Build_world m e (STATUS_CALLBACK w) (QUERY_CALLBACK w) (out w)) in *.
  destruct (puflib_module_status_run module w1 path_f path_d path_dis_f
              path_dis_d Hf Hd Hdf Hdd) as (e' & Hstatus).
  cbn [fs w1] in Hstatus.
  rewrite (is_store_outside (fs w) m path_dis_f) in Hstatus.
  2:{ apply Hout; [congruence|]. intros pd. rewrite Hd. by intros [= <-]. }
  rewrite (is_store_outside (fs w) m path_dis_d) in Hstatus.
  2:{ apply Hout; [congruence|]. intros pd. rewrite Hd. by intros [= <-]. }
  rewrite Hdis in Hstatus. cbn zeta in Hstatus.
  exists r, w1. eexists. split; [exact Hrun|]. rewrite Hstatus.
  do 2 f_equal. rewrite Z.lor_0_l.
  destruct (is_store m path_f false || is_store m path_d true); [|done].
  by rewrite (Z.lor_comm MODULE_PROVISIONED), <- Z.lor_assoc, Z.lor_diag.
Qed.

(** ** Further properties of the test module *)

Lemma append_empty_r (s : string) : s +:+ "" = s.
Proof.
  induction s as [|x s IH]; [done|].
  change (String x s +:+ "") with (String x (s +:+ "")). by rewrite IH.
Qed.

Lemma c_str_cut (buf : list ascii) (i : nat) :
  (String.length (c_str (<[i := zero]> buf)) ≤ i)%nat.
Proof.
  unfold insert. revert i. induction buf as [|c buf IH]; intros i.
  - cbn. lia.
  - destruct i as [|i]; cbn [list_insert c_str].
    + cbn. lia.
    + destruct (Ascii.eqb c zero); cbn [String.length]; [lia|].
      exact (le_n_S _ _ (IH i)).
Qed.

Lemma substring_0_0 s : substring 0 0 s = "".
Proof. by destruct s. Qed.

(** Whatever the file held, once "2" and a newline are written at its start
    the step read back is 2. *)
Lemma persisted_step_second c :
  persisted_step (write_at 0 (sprintf ("%d" +:+ nl) [arg_d 2]) c) = 2.
Proof. unfold write_at. by rewrite substring_0_0. Qed.

Lemma puflib_report_fmt_text module level fmt ap w h :
  STATUS_CALLBACK w = Some h →
  (∀ n, fault (sys_malloc n) = None) →
  ∃ e,
    puflib_report_fmt module level fmt ap w
    = Some (tt, Build_world (fs w) e (Some h) (QUERY_CALLBACK w)
                  (h (level_as_string level +:+ " (" +:+ name module +:+ "): "
                      +:+ sprintf fmt ap) (out w))).
Proof.
  intros Hh Hmem. unfold puflib_report_fmt, puflib_asprintf.
  rewrite Hmem. msimpl.
  destruct (puflib_report_run module level (sprintf fmt ap) w h Hh)
    as (e & text & Hrun & Htext).
  rewrite Hmem in Htext. subst text. run Hrun. msimpl.
  unfold formatted_message. rewrite sprintf_report_format. by eexists.
Qed.

(** A file store with something at its path is not created, and the attempt
    touches nothing but missing directories above the path. *)
Lemma puflib_create_nv_store_blocked module type p x w :
  storage_type_is_dir type = false →
  puflib_get_nv_store_path (name module) type = Some p →
  lookup_node (fs w) p = Some x →
  ∃ m e,
    puflib_create_nv_store module type w
    = Some (None, Build_world m e (STATUS_CALLBACK w) (QUERY_CALLBACK w) (out w))
    ∧ (∀ q y, fs w !! q = Some y → m !! q = Some y)
    ∧ (∀ q, ¬ q `prefix_of` p → m !! q = fs w !! q)
    ∧ (∀ q y, m !! q = Some y → fs w !! q = Some y ∨ y = Dir).
Proof.
  intros Hdir Hpath Hthere. unfold puflib_create_nv_store.
  rewrite Hpath, Hdir. msimpl. cbn [negb].
  unfold puflib_create_directory_tree.
  destruct (mkdirs_frame (prefixes (parent p)) w)
    as (r & m & e & Hmk & Hmono & Hout & Hnew & _).
  run Hmk.
  assert (Houtside : ∀ q, ¬ q `prefix_of` p → m !! q = fs w !! q).
  { intros q Hq. apply Hout. intros Hin.
    apply elem_of_prefixes in Hin as [_ Hin]. by apply Hq, prefix_of_parent. }
  destruct r; msimpl; [by eexists _, _|].
  unfold puflib_create_and_open. msimpl.
  destruct (fault (sys_creat p)); msimpl; [by eexists _, _|].
  rewrite (lookup_node_mono (fs w) m p x Hmono Hthere). msimpl.
  by eexists _, _.
Qed.

(** X13.  [provision_start] ignores the outcome of the query: it returns
    PROVISION_INCOMPLETE in any case.  The query is made after the two
    reports, to the handler installed at the call, on the array of 500 bytes
    as it is; the last report echoes the buffer that query left, read as a C
    string after byte 499 was set to NUL, so at most 499 characters.  Without
    a query handler what it echoes is the indeterminate content of the
    array. *)
Theorem provision_start_echo f w h :
  STATUS_CALLBACK w = Some h →
  (∀ n, fault (sys_malloc n) = None) →
  ∃ w1 r buffer w2 w',
    provision_start f w = Some (PROVISION_INCOMPLETE, w')
    ∧ QUERY_CALLBACK w1 = QUERY_CALLBACK w
    ∧ out w1
      = h "info (puflibtest): provisioning will continue after the next invocation"
          (h "info (puflibtest): writing to NV store" (out w))
    ∧ puflib_query MODULE_INFO "testquery" "Enter any data: "
        (resize 500 zero stack_garbage) 500 w1 = Some ((r, buffer), w2)
    ∧ (∀ q, QUERY_CALLBACK w = Some q →
            q MODULE_INFO "testquery" "Enter any data: "
              (resize 500 zero stack_garbage) 500%nat (out w1)
            = (r, buffer, out w2))
    ∧ out w' = h ("info (puflibtest): query input was: "
                  +:+ c_str (<[499%nat := zero]> buffer)) (out w2)
    ∧ (String.length (c_str (<[499%nat := zero]> buffer)) ≤ 499)%nat
    ∧ (QUERY_CALLBACK w = None →
       buffer = resize 500 zero stack_garbage ∧ out w2 = out w1).
Proof.
  intros Hh Hmem. unfold provision_start.
  match goal with
  | |- context [(puflib_report ?a ?l ?s ≫= _) ?ww] =>
      destruct (puflib_report_run a l s ww h Hh) as (e0 & text0 & E0 & Htext0);
      run E0; clear E0; msimpl
  end.
  rewrite Hmem in Htext0. subst text0.
  match goal with
  | |- context [(fprintf ?a ?b ?c ≫= _) ?ww] =>
      destruct (fprintf_frame a b c ww) as (f' & m & e1 & E1); run E1; clear E1
  end.
  msimpl.
  match goal with
  | |- context [(puflib_report ?a ?l ?s ≫= _) ?ww] =>
      destruct (puflib_report_run a l s ww h eq_refl)
        as (e2 & text2 & E2 & Htext2);
      run E2; clear E2; msimpl
  end.
  rewrite Hmem in Htext2. subst text2.
  unfold fclose. msimpl.
  match goal with
  | |- context [(puflib_query ?a ?b ?c ?d ?n ≫= _) ?ww] =>
      set (w1 := ww);
      destruct (puflib_query_run a b c d n w1) as ([r b'] & e3 & o3 & E3)
  end.
  run E3. msimpl.
  match goal with
  | |- context [(puflib_report_fmt ?a ?b ?c ?d ≫= _) ?ww] =>
      destruct (puflib_report_fmt_text a b c d ww h eq_refl Hmem) as (e4 & E4);
      run E4; clear E4
  end.
  msimpl. exists w1, r, b'. eexists _, _. split; [reflexivity|].
  split; [done|]. split; [done|].
  split; [exact E3|]. cbn [out].
  unfold puflib_query in E3. msimpl_in E3.
  change (QUERY_CALLBACK w1) with (QUERY_CALLBACK w) in E3.
  split.
  { intros q Hq. rewrite Hq in E3.
    destruct (q _ _ _ _ _ _) as [[r0 b0] c0]. msimpl_in E3.
    injection E3. intros. by subst. }
  split.
  { cbn [sprintf render_arg]. by rewrite append_empty_r. }
  split; [apply c_str_cut|].
  intros Hq. rewrite Hq in E3. msimpl_in E3.
  injection E3. intros. by subst.
Qed.

(** X14.  [provision] never looks at the final store.  Whenever the temp
    store is absent (and nothing fails) it starts a fresh run, on a module
    that is already provisioned as on any other: it returns
    PROVISION_INCOMPLETE, the temp store holds step 1, and every entry that is
    not the temp store or a directory above it is as before. *)
Theorem provision_starts_over w h p :
  STATUS_CALLBACK w = Some h →
  (∀ c, fault c = None) →
  puflib_get_nv_store_path (name MODULE_INFO) STORAGE_TEMP_FILE = Some p →
  p ≠ [] → fs w !! p = None → clear_way (fs w) p →
  ∃ w',
    provision w = Some (PROVISION_INCOMPLETE, w')
    ∧ fs w' !! p = Some (File ("1" +:+ nl))
    ∧ ∀ q, ¬ q `prefix_of` p → fs w' !! q = fs w !! q.
Proof.
  intros Hh Hok Hpath Hp Hfree Hclear.
  destruct (provision_fresh w h p Hh Hok Hpath Hp Hfree Hclear) as (e & o & Hrun).
  eexists. split; [exact Hrun|]. cbn [fs]. split; [apply lookup_insert_eq|].
  intros q Hq. assert (q ≠ p) by (by intros ->).
  rewrite !lookup_insert_ne by done. rewrite lookup_add_dirs.
  destruct (fs w !! q); [done|]. rewrite decide_False; [done|].
  intros [Hin _]. apply elem_of_prefixes in Hin as [_ Hin].
  by apply Hq, prefix_of_parent.
Qed.

(** X15.  From any temp store whose step reads as 1, whatever else the file
    holds, one call of [provision] returns PROVISION_INCOMPLETE and
    overwrites the start of the file with "2" and a newline, after which the
    step reads as 2. *)
Theorem provision_advances_step w h p c :
  STATUS_CALLBACK w = Some h →
  puflib_get_nv_store_path (name MODULE_INFO) STORAGE_TEMP_FILE = Some p →
  lookup_node (fs w) p = Some (File c) →
  fault (sys_fopen p) = None → fault (sys_write p) = None →
  persisted_step c = 1 →
  ∃ w' c',
    provision w = Some (PROVISION_INCOMPLETE, w')
    ∧ lookup_node (fs w') p = Some (File c')
    ∧ c' = write_at 0 ("2" +:+ nl) c
    ∧ persisted_step c' = 2.
Proof.
  intros Hh Hpath Hthere Hop Hwr Hstep.
  destruct (puflib_create_nv_store_frame MODULE_INFO STORAGE_TEMP_FILE w)
    as (r & m & e0 & Hcreate & Hmono & Hfail).
  rewrite (Hfail p _ Hpath eq_refl Hthere) in Hcreate.
  apply (lookup_node_mono _ m) in Hthere; [|done].
  destruct (provision_resumes w _ h p c Hh Hcreate Hpath Hthere Hop)
    as (e1 & o1 & ->).
  cbn [fs] in *.
  assert (Hp : p ≠ []) by (by intros ->).
  rewrite lookup_node_ne in Hthere by done.
  destruct (provision_continue_step1
              (Build_world m e1 (Some h) (QUERY_CALLBACK w) o1) h p c
              eq_refl Hwr Hthere Hstep) as (e2 & o2 & ->).
  eexists _, _. split; [reflexivity|]. cbn [fs].
  rewrite lookup_node_ne by done. split; [apply lookup_insert_eq|].
  split; [done|]. apply persisted_step_second.
Qed.

(** Run [provision_continue] at step 2 up to the removal of the temp store;
    [Hthere] says that the file at [p] holds [c], [Hstep] that [c] reads as
    step 2. *)
Ltac continue_at_step2 h p c Hthere Hstep :=
  unfold provision_continue; report_step h;
  lazymatch goal with
  | |- context [(fscanf_d _ ≫= _) ?ww] =>
      let r := fresh "r" in
      let f := fresh "f" in
      let Hscan := fresh "Hscan" in
      let Hr := fresh "Hr" in
      destruct (fscanf_d_run p c ww Hthere) as (r & f & ? & Hscan & Hr & _);
      run Hscan; rewrite Hr, Hstep; clear Hscan Hr;
      cbn [Z.eqb Pos.eqb]; cbv iota;
      unfold fclose; msimpl; report_step h; report_step h
  end.

(** Re-attaching to a temp store that is there, whatever the directories
    above it look like. *)
Lemma provision_resumes_any w h p c :
  STATUS_CALLBACK w = Some h →
  puflib_get_nv_store_path (name MODULE_INFO) STORAGE_TEMP_FILE = Some p →
  lookup_node (fs w) p = Some (File c) →
  fault (sys_fopen p) = None →
  ∃ m e o,
    provision w
    = provision_continue (Build_FILE p 0)
        (Build_world m e (Some h) (QUERY_CALLBACK w) o)
    ∧ m !! p = Some (File c)
    ∧ p ≠ []
    ∧ (∀ q y, fs w !! q = Some y → m !! q = Some y)
    ∧ (∀ q, ¬ q `prefix_of` p → m !! q = fs w !! q)
    ∧ (∀ q y, m !! q = Some y → fs w !! q = Some y ∨ y = Dir).
Proof.
  intros Hh Hpath Hthere Hop.
  destruct (puflib_create_nv_store_blocked MODULE_INFO STORAGE_TEMP_FILE p _ w
              eq_refl Hpath Hthere) as (m & e0 & Hcreate & Hmono & Hout & Hnew).
  assert (Hp : p ≠ []) by (by intros ->).
  apply (lookup_node_mono _ m) in Hthere; [|done].
  destruct (provision_resumes w _ h p c Hh Hcreate Hpath Hthere Hop)
    as (e1 & o1 & ->).
  rewrite lookup_node_ne in Hthere by done.
  by eexists m, _, _.
Qed.

(** X16.  When the temp store is at step 2 and removing it fails,
    [provision] returns PROVISION_ERROR, its last act being the report at
    level STATUS_ERROR of the description of the error of the removal; the
    temp store still holds step 2, so the next invocation tries again. *)
Theorem provision_removal_fails w h p c e :
  STATUS_CALLBACK w = Some h →
  puflib_get_nv_store_path (name MODULE_INFO) STORAGE_TEMP_FILE = Some p →
  lookup_node (fs w) p = Some (File c) →
  fault (sys_fopen p) = None →
  persisted_step c = 2 →
  fault (sys_remove p) = Some e →
  ∃ w1 w',
    provision w = Some (PROVISION_ERROR, w')
    ∧ puflib_report MODULE_INFO STATUS_ERROR (strerror e) w1 = Some (tt, w')
    ∧ lookup_node (fs w') p = Some (File c).
Proof.
  intros Hh Hpath Hthere Hop Hstep Hrm.
  destruct (provision_resumes_any w h p c Hh Hpath Hthere Hop)
    as (m & e1 & o1 & -> & Hm & Hp & _ & _ & _).
  continue_at_step2 h p c Hm Hstep.
  unfold puflib_delete_nv_store. rewrite Hpath.
  change (storage_type_is_dir STORAGE_TEMP_FILE) with false. cbv iota. msimpl.
  match goal with
  | |- context [(remove p ≫= _) ?ww] =>
      pose proof (remove_file_run p c ww Hp Hm) as Hrun
  end.
  rewrite Hrm in Hrun. run Hrun. msimpl.
  match goal with
  | |- context [(puflib_report ?a ?b ?s ≫= _) ?ww] =>
      destruct (puflib_report_run a b s ww h eq_refl) as (? & ? & Hrep & _);
      exists ww; eexists; split; [by run Hrep|]; split; [exact Hrep|]
  end.
  cbn [fs]. by rewrite lookup_node_ne.
Qed.

(** X17.  When the temp store is at step 2 and something is already at the
    path of the final store (the module is provisioned already, say),
    [provision] removes the temp store, fails to create the final store,
    reports the OS error and returns PROVISION_ERROR: the progress is lost
    and what was at the final path is as before. *)
Theorem provision_final_in_the_way w h p c pf x :
  STATUS_CALLBACK w = Some h →
  puflib_get_nv_store_path (name MODULE_INFO) STORAGE_TEMP_FILE = Some p →
  puflib_get_nv_store_path (name MODULE_INFO) STORAGE_FINAL_FILE = Some pf →
  lookup_node (fs w) p = Some (File c) →
  persisted_step c = 2 →
  fault (sys_fopen p) = None → fault (sys_remove p) = None →
  lookup_node (fs w) pf = Some x →
  ¬ p `prefix_of` pf →
  ∃ w1 w',
    provision w = Some (PROVISION_ERROR, w')
    ∧ puflib_perror MODULE_INFO w1 = Some (tt, w')
    ∧ store_present w' MODULE_INFO STORAGE_TEMP_FILE = false
    ∧ lookup_node (fs w') pf = Some x.
Proof.
  intros Hh Hpath Hfinal Hthere Hstep Hop Hrm Hway Hpre.
  assert (Hne : pf ≠ p) by (by intros ->).
  destruct (provision_resumes_any w h p c Hh Hpath Hthere Hop)
    as (m & e1 & o1 & -> & Hm & Hp & Hmono & _ & _).
  continue_at_step2 h p c Hm Hstep.
  match goal with
  | |- context [(puflib_delete_nv_store _ _ ≫= _) ?ww] =>
      destruct (delete_file_store_run MODULE_INFO STORAGE_TEMP_FILE p c ww
                  eq_refl Hpath Hp Hm Hrm) as (? & E3);
      run E3; clear E3
  end.
  msimpl.
  assert (Hway' : lookup_node (delete p m) pf = Some x).
  { destruct pf as [|a pf]; [exact Hway|]. cbn [lookup_node] in *.
    rewrite lookup_delete_ne by done. by apply Hmono. }
  match goal with
  | |- context [(puflib_create_nv_store _ _ ≫= _) ?ww] =>
      destruct (puflib_create_nv_store_blocked MODULE_INFO STORAGE_FINAL_FILE
                  pf x ww eq_refl Hfinal Hway')
        as (m' & ? & E4 & Hmono' & Hout' & _);
      run E4; clear E4
  end.
  cbn [fs STATUS_CALLBACK QUERY_CALLBACK out] in *.
  match goal with
  | |- context [(puflib_perror _ ≫= _) ?ww] =>
      destruct (puflib_perror_run MODULE_INFO ww h eq_refl)
        as (? & ? & E5);
      exists ww; eexists; split; [by run E5|]; split; [exact E5|]
  end.
  cbn [fs]. split.
  - unfold store_present. rewrite Hpath. apply is_store_None; [done|].
    rewrite Hout' by done. apply lookup_delete_eq.
  - by apply (lookup_node_mono (delete p m)).
Qed.

(** X18.  An error return of [provision] does not mean "not provisioned".
    When the temp store is at step 2 and everything works until the marker is
    written, the failing [fputs] makes [provision] return PROVISION_ERROR, but
    the temp store is gone and the final store stays behind without the
    marker: since the status probe only looks for the store,
    [puflib_module_status] has the PROVISIONED flag set. *)
Theorem provision_error_leaves_final_store w h p c pf pd pdf pdd e :
  STATUS_CALLBACK w = Some h →
  puflib_get_nv_store_path (name MODULE_INFO) STORAGE_TEMP_FILE = Some p →
  puflib_get_nv_store_path (name MODULE_INFO) STORAGE_FINAL_FILE = Some pf →
  puflib_get_nv_store_path (name MODULE_INFO) STORAGE_FINAL_DIR = Some pd →
  puflib_get_nv_store_path (name MODULE_INFO) STORAGE_DISABLED_FILE = Some pdf →
  puflib_get_nv_store_path (name MODULE_INFO) STORAGE_DISABLED_DIR = Some pdd →
  lookup_node (fs w) p = Some (File c) →
  persisted_step c = 2 →
  ¬ p `prefix_of` pf → ¬ pf `prefix_of` p →
  fs w !! pf = None → clear_way (fs w) pf →
  (∀ s, s ≠ sys_write pf → fault s = None) →
  fault (sys_write pf) = Some e →
  ∃ w' s w'',
    provision w = Some (PROVISION_ERROR, w')
    ∧ fs w' !! p = None
    ∧ store_present w' MODULE_INFO STORAGE_FINAL_FILE = true
    ∧ puflib_module_status MODULE_INFO w' = Some (s, w'')
    ∧ Z.land s MODULE_PROVISIONED = MODULE_PROVISIONED.
Proof.
  intros Hh Hpath Hfinal Hd Hdf Hdd Hthere Hstep Hpre Hpre' Hfree Hclear Hok Hwr.
  assert (Hpf : pf ≠ []) by (intros ->; apply Hpre', prefix_nil).
  assert (Hne : pf ≠ p) by (by intros ->).
  destruct (provision_resumes_any w h p c Hh Hpath Hthere)
    as (m & e1 & o1 & -> & Hm & Hp & Hmono & Hout & Hnew); [by apply Hok|].
  continue_at_step2 h p c Hm Hstep.
  match goal with
  | |- context [(puflib_delete_nv_store _ _ ≫= _) ?ww] =>
      destruct (delete_file_store_run MODULE_INFO STORAGE_TEMP_FILE p c ww
                  eq_refl Hpath Hp Hm ltac:(by apply Hok)) as (? & E3);
      run E3; clear E3
  end.
  msimpl.
  assert (Hfree' : delete p m !! pf = None).
  { rewrite lookup_delete_ne by done. by rewrite Hout. }
  assert (Hclear' : clear_way (delete p m) pf).
  { intros q c' Hq Hfile. apply lookup_delete_Some in Hfile as [_ Hfile].
    apply Hnew in Hfile as [Hfile|?]; [|done]. by apply (Hclear q c'). }
  assert (Hmk : ∀ q, q ∈ prefixes (parent pf) → fault (sys_mkdir q) = None)
    by (intros q _; by apply Hok).
  assert (Hcr : fault (sys_creat pf) = None) by (by apply Hok).
  assert (Hop : fault (sys_fopen pf) = None) by (by apply Hok).
  match goal with
  | |- context [(puflib_create_nv_store _ _ ≫= _) ?ww] =>
      rewrite (bind_run _ _ _ _ _
                 (create_file_store_run MODULE_INFO STORAGE_FINAL_FILE pf ww
                    eq_refl Hfinal Hpf Hfree' Hclear' Hmk Hcr Hop))
  end.
  msimpl.
  set (m1 := <[pf := File ""]> (add_dirs (prefixes (parent pf)) (delete p m))).
  assert (Hm1 : m1 !! pf = Some (File "")) by apply lookup_insert_eq.
  match goal with
  | |- context [(fopen pf "w" ≫= _) ?ww] =>
      assert (Hopen : fopen pf "w" ww
                      = Some (Some (Build_FILE pf 0),
                              set_fs (<[pf := File ""]> m1) ww))
        by (apply (fopen_truncate pf ""); [exact Hop|];
            cbn [fs set_fs]; by rewrite lookup_node_ne);
      run Hopen; clear Hopen
  end.
  msimpl. unfold fputs, fwrite_string. msimpl. rewrite Hwr. msimpl.
  unfold fclose. msimpl.
  match goal with
  | |- context [(puflib_perror _ ≫= _) ?ww] =>
      destruct (puflib_perror_run MODULE_INFO ww h eq_refl) as (? & ? & E5);
      run E5; clear E5
  end.
  msimpl.
  match goal with
  | |- context [Some (PROVISION_ERROR, ?ww)] =>
      destruct (puflib_module_status_run MODULE_INFO ww pf pd pdf pdd
                  Hfinal Hd Hdf Hdd) as (? & Hstatus);
      rewrite (is_store_file (fs ww) pf "" Hpf) in Hstatus
        by (cbn [fs]; apply lookup_insert_eq)
  end.
  cbn [orb] in Hstatus.
  eexists _, _, _. split; [reflexivity|]. cbn [fs].
  split; [|split; [|split; [exact Hstatus|]]].
  - unfold m1. rewrite !lookup_insert_ne by done. rewrite lookup_add_dirs.
    rewrite lookup_delete_eq. rewrite decide_False; [done|]. intros [Hin _].
    apply elem_of_prefixes in Hin as [_ Hin]. by apply Hpre, prefix_of_parent.
  - unfold store_present. rewrite Hfinal. cbn [fs].
    apply (is_store_file _ pf ""); [done | apply lookup_insert_eq].
  - cbn zeta. apply land_lor_absorb.
Qed.

(** X19.  When the temp store is there but cannot be opened, [provision]
    reports the error of [fopen] with [puflib_perror] and returns
    PROVISION_ERROR; the store holds what it held. *)
Theorem provision_open_fails w h p c e :
  STATUS_CALLBACK w = Some h →
  puflib_get_nv_store_path (name MODULE_INFO) STORAGE_TEMP_FILE = Some p →
  lookup_node (fs w) p = Some (File c) →
  fault (sys_fopen p) = Some e →
  ∃ w1 w2 w',
    provision w = Some (PROVISION_ERROR, w')
    ∧ errno w1 = e
    ∧ puflib_perror MODULE_INFO w1 = Some (tt, w2)
    ∧ out w' = out w2
    ∧ fs w' = fs w2
    ∧ lookup_node (fs w') p = Some (File c).
Proof.
  intros Hh Hpath Hthere Hop.
  destruct (puflib_create_nv_store_blocked MODULE_INFO STORAGE_TEMP_FILE p _ w
              eq_refl Hpath Hthere) as (m & e0 & Hcreate & Hmono & _ & _).
  apply (lookup_node_mono _ m) in Hthere; [|done].
  unfold provision. run Hcreate. report_step h.
  match goal with
  | |- context [(puflib_get_nv_store _ _ ≫= _) ?ww] =>
      destruct (puflib_get_nv_store_run MODULE_INFO STORAGE_TEMP_FILE ww)
        as (? & E1 & _);
      rewrite (store_present_file ww MODULE_INFO STORAGE_TEMP_FILE p c) in E1
        by done;
      rewrite Hpath in E1; run E1; clear E1
  end.
  msimpl. unfold fopen. msimpl. rewrite Hop. msimpl.
  match goal with
  | |- context [(puflib_perror _ ≫= _) ?ww] =>
      destruct (puflib_perror_run MODULE_INFO ww h eq_refl) as (? & ? & E5);
      exists ww; eexists; eexists; split; [by run E5; msimpl|];
      split; [done|]; split; [exact E5|]
  end.
  by cbn [fs out set_errno].
Qed.

End Proofs.

(** ** The theorems at concrete inputs *)

Lemma puflib_report_never_fails_witness :
  ∃ w', @puflib_report Demo.plat_nomem Demo.alpha STATUS_WARN "look out" Demo.w0
        = Some (tt, w')
    ∧ out w' = ["error (puflib): internal error formatting message"]
    ∧ fs w' = ∅.
Proof.
  destruct (@puflib_report_never_fails Demo.plat_nomem Demo.alpha STATUS_WARN
              "look out" Demo.w0 Demo.print eq_refl)
    as (w' & Hrun & _ & Hfall & Hfs & _).
  exists w'. split; [exact Hrun|]. split; [|exact Hfs].
  apply Hfall. by eexists.
Defined.

Lemma puflib_report_rendering_witness :
  ∃ w', @puflib_report Demo.plat Demo.alpha 7 "look out" Demo.w0 = Some (tt, w')
    ∧ out w' = ["error (alpha): look out"].
Proof.
  destruct (@puflib_report_rendering Demo.plat Demo.alpha 7 "look out"
              Demo.w0 Demo.print eq_refl (λ _, eq_refl))
    as (w' & label & Hrun & Hout & _ & _ & _ & Hother).
  exists w'. split; [exact Hrun|].
  rewrite Hout, Hother; [reflexivity | discriminate | discriminate].
Defined.

Lemma puflib_query_delegates_witness :
  puflib_query Demo.alpha "k" "? " ["x"; "y"]%char 2 Demo.w0
  = Some ((true, ["x"; "y"]%char), set_errno 0 Demo.w0)
  ∧ ∃ r buffer' c,
      Demo.answer Demo.alpha "k" "? " ["x"; "y"]%char 2%nat (out Demo.w0q)
      = (r, buffer', c)
      ∧ puflib_query Demo.alpha "k" "? " ["x"; "y"]%char 2 Demo.w0q
        = Some ((r, buffer'), set_out c Demo.w0q).
Proof.
  split.
  - apply (puflib_query_delegates Demo.alpha "k" "? "
             ["x"; "y"]%char 2 Demo.w0). reflexivity.
  - apply (puflib_query_delegates Demo.alpha "k" "? "
             ["x"; "y"]%char 2 Demo.w0q). reflexivity.
Defined.

Lemma provision_round_trip_witness :
  ∃ w1 w2 w3 w4 s,
    @provision Demo.plat Demo.w0 = Some (PROVISION_INCOMPLETE, w1)
    ∧ fs w1 !! Demo.temp = Some (File ("1" +:+ nl))
    ∧ @provision Demo.plat w1 = Some (PROVISION_INCOMPLETE, w2)
    ∧ fs w2 !! Demo.temp = Some (File ("2" +:+ nl))
    ∧ @provision Demo.plat w2 = Some (PROVISION_COMPLETE, w3)
    ∧ fs w3 !! Demo.temp = None
    ∧ fs w3 !! Demo.final = Some (File "provisioned")
    ∧ @puflib_module_status Demo.plat MODULE_INFO w3 = Some (s, w4)
    ∧ Z.land s 2 = 2.
Proof.
  apply (@provision_round_trip Demo.plat Demo.w0 Demo.print Demo.temp Demo.final
           ["var"; "lib"; "puflib"; "final.d"; "puflibtest"]
           ["var"; "lib"; "puflib"; "disabled"; "puflibtest"]
           ["var"; "lib"; "puflib"; "disabled.d"; "puflibtest"]);
    try reflexivity.
  - intros [k Hk]. discriminate Hk.
  - intros [k Hk]. discriminate Hk.
  - intros q c _. vm_compute. discriminate.
  - intros q c _. vm_compute. discriminate.
Defined.

Lemma provision_corrupted_store_witness :
  ∃ w1 w',
    @provision Demo.plat Demo.w_step99 = Some (PROVISION_ERROR, w')
    ∧ @puflib_report Demo.plat MODULE_INFO STATUS_WARN "NV store corrupted" w1
      = Some (tt, w')
    ∧ lookup_node (fs w') Demo.temp = Some (File "99")
    ∧ out w' = Demo.print "warn (puflibtest): NV store corrupted" (out w1).
Proof.
  destruct (@provision_corrupted_store Demo.plat Demo.w_step99 Demo.print
              Demo.temp "99" eq_refl eq_refl eq_refl eq_refl)
    as (w1 & w' & Hrun & Hrep & Hfile & Hout).
  - vm_compute. discriminate.
  - vm_compute. discriminate.
  - exists w1, w'. repeat split; try done. apply Hout. reflexivity.
Defined.

Lemma create_existing_directory_store_witness :
  ∃ w', @puflib_create_nv_store Demo.plat Demo.alpha STORAGE_FINAL_DIR
          Demo.w_final_dir = Some (None, w')
    ∧ errno w' = EEXIST
    ∧ fs w' = fs Demo.w_final_dir.
Proof.
  apply (@create_existing_directory_store Demo.plat Demo.alpha STORAGE_FINAL_DIR
           ["var"; "lib"; "puflib"; "final.d"; "alpha"]);
    reflexivity.
Defined.

(** C4 as the spec states it does not hold.  The temp store of the test
    module is there, holding step 1, and creating it fails because the file
    table is full (ENFILE, not EEXIST): [provision] does not return
    PROVISION_ERROR but resumes, advancing the step to 2. *)
Lemma provision_resumes_on_any_failure :
  (∃ w1, @puflib_create_nv_store Demo.plat_enfile MODULE_INFO STORAGE_TEMP_FILE
           Demo.w_step1 = Some (None, w1)
       ∧ errno w1 = ENFILE ∧ errno w1 ≠ EEXIST)
  ∧ (∃ w', @provision Demo.plat_enfile Demo.w_step1
           = Some (PROVISION_INCOMPLETE, w')
         ∧ fs w' !! Demo.temp = Some (File ("2" +:+ nl)))
  ∧ ¬ (∀ w1, @puflib_create_nv_store Demo.plat_enfile MODULE_INFO
               STORAGE_TEMP_FILE Demo.w_step1 = Some (None, w1) →
             errno w1 ≠ EEXIST →
             ∃ w', @provision Demo.plat_enfile Demo.w_step1
                   = Some (PROVISION_ERROR, w')).
Proof.
  split; [|split].
  - eexists. split; [vm_compute; reflexivity|]. by vm_compute.
  - eexists. split; [vm_compute; reflexivity|]. by vm_compute.
  - intros Hclaim.
    destruct (Hclaim (set_errno ENFILE Demo.w_step1)) as [w' Hw'].
    + by vm_compute.
    + by vm_compute.
    + vm_compute in Hw'. discriminate Hw'.
Qed.

Lemma provision_creation_failure_witness :
  (∃ w2 w',
     @provision Demo.plat_denied Demo.w0 = Some (PROVISION_ERROR, w')
     ∧ @puflib_perror Demo.plat_denied MODULE_INFO w2 = Some (tt, w')
     ∧ errno w2 = EACCES
     ∧ fs w' = ∅)
  ∧ (∃ w', @provision Demo.plat_enfile Demo.w_step1
           = Some (PROVISION_INCOMPLETE, w')
         ∧ lookup_node (fs w') Demo.temp = Some (File ("2" +:+ nl))).
Proof.
  split.
  - destruct (@provision_creation_failure Demo.plat_denied Demo.w0
                (set_errno EACCES Demo.w0) Demo.print eq_refl eq_refl)
      as [Habsent _].
    destruct (Habsent eq_refl) as (w2 & w' & Hrun & Hperror & Herrno & Hfs).
    exists w2, w'. repeat split; try done. apply Herrno. by eexists.
  - destruct (@provision_creation_failure Demo.plat_enfile Demo.w_step1
                (set_errno ENFILE Demo.w_step1) Demo.print eq_refl eq_refl)
      as [_ Hthere].
    destruct (Hthere Demo.temp ("1" +:+ nl) eq_refl eq_refl eq_refl)
      as (w2 & r & w' & Hrun & _ & _ & _ & _ & _ & Hstep).
    destruct (Hstep eq_refl eq_refl) as [-> Hfile].
    exists w'. split; [exact Hrun | exact Hfile].
Defined.

Lemma puflib_module_status_probes_witness :
  (∃ w', @puflib_module_status Demo.plat Demo.alpha Demo.w_disabled
         = Some (Z.lor 2 1, w'))
  ∧ (∃ w', @puflib_module_status Demo.plat Demo.alpha Demo.w0 = Some (0, w')).
Proof.
  split.
  - destruct (@puflib_module_status_probes Demo.plat Demo.alpha Demo.w_disabled)
      as (s & w' & Hrun & _ & _ & Hflags).
    destruct (Hflags _ _ _ _ eq_refl eq_refl eq_refl eq_refl) as (_ & Hdis & _).
    exists w'. rewrite Hrun. do 2 f_equal. apply Hdis. reflexivity.
  - destruct (@puflib_module_status_probes Demo.plat Demo.alpha Demo.w0)
      as (s & w' & Hrun & _ & _ & Hflags).
    destruct (Hflags _ _ _ _ eq_refl eq_refl eq_refl eq_refl) as (_ & _ & Hnone).
    exists w'. rewrite Hrun. do 2 f_equal. apply Hnone; reflexivity.
Defined.

Lemma create_then_get_witness :
  ∃ w2, @puflib_get_nv_store Demo.plat Demo.alpha STORAGE_FINAL_DIR
          (set_errno ENOENT Demo.w_final_dir)
        = Some (Some ["var"; "lib"; "puflib"; "final.d"; "alpha"], w2)
      ∧ fs w2 = fs (set_errno ENOENT Demo.w_final_dir).
Proof.
  apply (@create_then_get Demo.plat Demo.alpha STORAGE_FINAL_DIR
           ["var"; "lib"; "puflib"; "final.d"; "alpha"] Demo.w0).
  vm_compute. reflexivity.
Defined.

Lemma puflib_deprovision_outcome_witness :
  ∃ w', @puflib_deprovision Demo.plat Demo.alpha Demo.w_final_file
        = Some (false, w')
      ∧ @store_present Demo.plat w' Demo.alpha STORAGE_FINAL_FILE = false
      ∧ @store_present Demo.plat w' Demo.alpha STORAGE_FINAL_DIR = false.
Proof.
  destruct (@puflib_deprovision_outcome Demo.plat Demo.alpha Demo.w_final_file)
    as (e & r1 & w1 & r2 & w2 & w' & _ & _ & Hrun & _ & _ & Hok & _).
  destruct (r1 || r2).
  - exfalso. vm_compute in Hrun. discriminate Hrun.
  - exists w'. split; [exact Hrun|]. by apply Hok.
Defined.

(** *** Further properties *)

(** [clear_way] decided by running over the ancestors. *)
Lemma clear_way_check (m : gmap path node) (p : path) :
  forallb (λ q, match m !! q with Some (File _) => false | _ => true end)
    (prefixes (parent p)) = true →
  clear_way m p.
Proof.
  intros Hall q c Hq Hfile. rewrite forallb_forall in Hall.
  apply list_elem_of_In in Hq. specialize (Hall q Hq). by rewrite Hfile in Hall.
Qed.

Lemma puflib_get_module_registered_witness :
  puflib_get_module Demo.table "puflibtest" = Some MODULE_INFO.
Proof.
  apply (puflib_get_module_registered Demo.table MODULE_INFO).
  - by apply (bool_decide_unpack _).
  - repeat constructor.
Defined.

Lemma puflib_perror_reports_errno_witness :
  ∃ w', @puflib_perror Demo.plat Demo.alpha (set_errno ENOENT Demo.w0)
        = Some (tt, w')
    ∧ out w' = ["error (alpha): errno 2"]
    ∧ fs w' = ∅.
Proof.
  apply (@puflib_perror_reports_errno Demo.plat Demo.alpha
           (set_errno ENOENT Demo.w0) Demo.print eq_refl (λ _, eq_refl)).
Defined.


Lemma reporting_needs_status_handler_witness :
  @puflib_report Demo.plat Demo.alpha STATUS_INFO "hello" Demo.w_silent = None
  ∧ @puflib_report_fmt Demo.plat Demo.alpha STATUS_INFO "%s" [arg_s "hello"]
      Demo.w_silent = None
  ∧ @puflib_perror Demo.plat Demo.alpha Demo.w_silent = None.
Proof.
  apply (@reporting_needs_status_handler Demo.plat Demo.alpha STATUS_INFO
           "hello" "%s" [arg_s "hello"] Demo.w_silent).
  reflexivity.
Defined.

Lemma provision_needs_status_handler_witness :
  @provision Demo.plat Demo.w_silent = None.
Proof.
  apply (@provision_needs_status_handler Demo.plat Demo.w_silent). reflexivity.
Defined.

Lemma create_twice_witness :
  ∃ w1 w2,
    @puflib_create_nv_store Demo.plat Demo.alpha STORAGE_FINAL_DIR Demo.w0
    = Some (Some ["var"; "lib"; "puflib"; "final.d"; "alpha"], w1)
    ∧ @puflib_create_nv_store Demo.plat Demo.alpha STORAGE_FINAL_DIR w1
      = Some (None, w2)
    ∧ errno w2 = EEXIST
    ∧ fs w2 = fs w1.
Proof.
  eexists.
  assert (Hfirst : @puflib_create_nv_store Demo.plat Demo.alpha STORAGE_FINAL_DIR
                     Demo.w0
                   = Some (Some ["var"; "lib"; "puflib"; "final.d"; "alpha"], _))
    by (vm_compute; reflexivity).
  destruct (@create_twice Demo.plat Demo.alpha STORAGE_FINAL_DIR _ _ _ Hfirst)
    as (w2 & Hrun & _ & Hdir).
  exists w2. split; [exact Hfirst|]. split; [exact Hrun|]. by apply Hdir.
Defined.

Lemma deprovision_keeps_disabled_witness :
  ∃ r w1 w2,
    @puflib_deprovision Demo.plat Demo.alpha Demo.w_disabled = Some (r, w1)
    ∧ @puflib_module_status Demo.plat Demo.alpha w1 = Some (Z.lor 2 1, w2).
Proof.
  apply (@deprovision_keeps_disabled Demo.plat Demo.alpha Demo.w_disabled
           ["var"; "lib"; "puflib"; "final"; "alpha"]
           ["var"; "lib"; "puflib"; "final.d"; "alpha"]
           ["var"; "lib"; "puflib"; "disabled"; "alpha"]
           ["var"; "lib"; "puflib"; "disabled.d"; "alpha"]);
    try reflexivity; try discriminate.
  - intros [k Hk]. discriminate Hk.
  - intros [k Hk]. discriminate Hk.
Defined.

Lemma provision_start_echo_witness :
  ∃ w',
    @provision_start Demo.plat (Build_FILE Demo.temp 0) Demo.w0q
    = Some (PROVISION_INCOMPLETE, w')
    ∧ out w'
      = ["info (puflibtest): writing to NV store";
         "info (puflibtest): provisioning will continue after the next invocation";
         "Enter any data: ";
         "info (puflibtest): query input was: ok"].
Proof.
  destruct (@provision_start_echo Demo.plat (Build_FILE Demo.temp 0)
              Demo.w0q Demo.print eq_refl (λ _, eq_refl))
    as (w1 & r & buffer & w2 & w' & Hrun & _ & Hasked & _ & Hanswer & Hout & _).
  exists w'. split; [exact Hrun|].
  specialize (Hanswer Demo.answer eq_refl). rewrite Hasked in Hanswer.
  set (o := out w2) in *. clearbody o.
  vm_compute in Hanswer. injection Hanswer as _ <- <-.
  rewrite Hout. reflexivity.
Defined.

Lemma provision_starts_over_witness :
  ∃ w', @provision Demo.plat Demo.w_provisioned = Some (PROVISION_INCOMPLETE, w')
    ∧ fs w' !! Demo.temp = Some (File ("1" +:+ nl))
    ∧ fs w' !! Demo.final = Some (File "provisioned").
Proof.
  destruct (@provision_starts_over Demo.plat Demo.w_provisioned Demo.print
              Demo.temp eq_refl (λ _, eq_refl) eq_refl)
    as (w' & Hrun & Htemp & Hframe).
  - discriminate.
  - reflexivity.
  - apply clear_way_check. reflexivity.
  - exists w'. split; [exact Hrun|]. split; [exact Htemp|].
    rewrite Hframe; [reflexivity|]. intros [k Hk]. discriminate Hk.
Defined.

Lemma provision_advances_step_witness :
  ∃ w', @provision Demo.plat Demo.w_step1 = Some (PROVISION_INCOMPLETE, w')
    ∧ lookup_node (fs w') Demo.temp = Some (File ("2" +:+ nl)).
Proof.
  destruct (@provision_advances_step Demo.plat Demo.w_step1 Demo.print Demo.temp
              ("1" +:+ nl) eq_refl eq_refl eq_refl eq_refl eq_refl eq_refl)
    as (w' & c' & Hrun & Hfile & -> & _).
  exists w'. split; [exact Hrun | exact Hfile].
Defined.

Lemma provision_removal_fails_witness :
  ∃ w1 w',
    @provision Demo.plat_busy Demo.w_step2 = Some (PROVISION_ERROR, w')
    ∧ @puflib_report Demo.plat_busy MODULE_INFO STATUS_ERROR "errno 16" w1
      = Some (tt, w')
    ∧ lookup_node (fs w') Demo.temp = Some (File ("2" +:+ nl)).
Proof.
  apply (@provision_removal_fails Demo.plat_busy Demo.w_step2 Demo.print
           Demo.temp ("2" +:+ nl) EBUSY); reflexivity.
Defined.

Lemma provision_final_in_the_way_witness :
  ∃ w1 w',
    @provision Demo.plat Demo.w_step2_provisioned = Some (PROVISION_ERROR, w')
    ∧ @puflib_perror Demo.plat MODULE_INFO w1 = Some (tt, w')
    ∧ @store_present Demo.plat w' MODULE_INFO STORAGE_TEMP_FILE = false
    ∧ lookup_node (fs w') Demo.final = Some (File "provisioned").
Proof.
  apply (@provision_final_in_the_way Demo.plat Demo.w_step2_provisioned
           Demo.print Demo.temp ("2" +:+ nl) Demo.final (File "provisioned"));
    try reflexivity.
  intros [k Hk]. discriminate Hk.
Defined.

Lemma provision_error_leaves_final_store_witness :
  ∃ w' s w'',
    @provision Demo.plat_io Demo.w_step2 = Some (PROVISION_ERROR, w')
    ∧ fs w' !! Demo.temp = None
    ∧ @store_present Demo.plat_io w' MODULE_INFO STORAGE_FINAL_FILE = true
    ∧ @puflib_module_status Demo.plat_io MODULE_INFO w' = Some (s, w'')
    ∧ Z.land s 2 = 2.
Proof.
  apply (@provision_error_leaves_final_store Demo.plat_io Demo.w_step2
           Demo.print Demo.temp ("2" +:+ nl) Demo.final
           ["var"; "lib"; "puflib"; "final.d"; "puflibtest"]
           ["var"; "lib"; "puflib"; "disabled"; "puflibtest"]
           ["var"; "lib"; "puflib"; "disabled.d"; "puflibtest"] EIO);
    try reflexivity.
  - intros [k Hk]. discriminate Hk.
  - intros [k Hk]. discriminate Hk.
  - apply clear_way_check. reflexivity.
  - intros s Hs. destruct s as [q|q|q|q|q|n]; try reflexivity.
    cbn. destruct (decide (q = Demo.final)) as [->|]; [done | reflexivity].
Defined.

Lemma provision_open_fails_witness :
  ∃ w1 w2 w',
    @provision Demo.plat_locked Demo.w_step1 = Some (PROVISION_ERROR, w')
    ∧ errno w1 = EACCES
    ∧ @puflib_perror Demo.plat_locked MODULE_INFO w1 = Some (tt, w2)
    ∧ out w' = out w2
    ∧ fs w' = fs w2
    ∧ lookup_node (fs w') Demo.temp = Some (File ("1" +:+ nl)).
Proof.
  apply (@provision_open_fails Demo.plat_locked Demo.w_step1 Demo.print
           Demo.temp ("1" +:+ nl) EACCES); reflexivity.
Defined.
